(** * Query tokenization of ColBERT: a shallow embedding

    This development embeds [colbert/modeling/tokenization/query_tokenization.py]
    (class [QueryTokenizer]) and proves properties of its three public
    methods [tokenize], [encode] and [tensorize], and of [max_len].

    Python integers are [Z]; sizes of lists and tensors are [nat]; a 2-D
    integer tensor is the list of its rows.  The Hugging Face tokenizer is an
    external collaborator: it is a record of functions, and what the proofs
    need from it is the contract [TokContract].  Exceptions are the
    constructors of [exception]; a method that can raise returns a
    [result]. *)

From Stdlib Require Import Ascii String ZArith Bool Lia Arith List.
Import ListNotations.

Set Implicit Arguments.

(** ** Exceptions *)

(** The three [assert] statements of the class raise [AssertionError]; the
    tag records which precondition failed. *)
Inductive error_kind : Set :=
| TypeKind             (* assert type(batch_text) in [list, tuple] *)
| InvalidArgument      (* assert on full_length_search, assert on len(context) *)
| InvariantViolation.  (* assert mask.sum().item() == mask.size(0) * mask.size(1) *)

Inductive exception : Set :=
| AssertionError (k : error_kind)
| IndexError      (* ids[:, 1] on a tensor with fewer than two columns *)
| ValueError      (* max() of an empty sequence *)
| RuntimeError.   (* torch.cat of tensors with different numbers of rows *)

Inductive result (A : Type) : Type :=
| Ok (a : A)
| Raise (e : exception).

Arguments Ok {A} a.
Arguments Raise {A} e.

Definition bind {A B : Type} (r : result A) (k : A -> result B) : result B :=
  match r with
  | Ok a => k a
  | Raise e => Raise e
  end.

Notation "x <- r ;; k" := (bind r (fun x => k))
  (at level 61, r at next level, right associativity).
Notation "' p <- r ;; k" := (bind r (fun x => match x with p => k end))
  (at level 61, p pattern, r at next level, right associativity).

Definition assert (b : bool) (k : error_kind) : result unit :=
  if b then Ok tt else Raise (AssertionError k).

(** ** Tensors *)

Definition tensor2 : Set := list (list Z).

(** [t.size(0)] and [t.size(1)]. *)
Definition size0 (t : tensor2) : nat := length t.
Definition size1 (t : tensor2) : nat :=
  match t with
  | [] => 0
  | row :: _ => length row
  end.

(** [t] has [n] rows of [w] columns each. *)
Definition shape (t : tensor2) (n w : nat) : Prop :=
  length t = n /\ Forall (fun row => length row = w) t.

Definition shapeb (t : tensor2) (n w : nat) : bool :=
  (length t =? n) && forallb (fun row => length row =? w) t.

(** Entry [(i, j)], when it exists. *)
Definition entry (t : tensor2) (i j : nat) : option Z :=
  match nth_error t i with
  | Some row => nth_error row j
  | None => None
  end.

(** [t.sum().item()] *)
Definition sum_row (row : list Z) : Z := fold_right Z.add 0%Z row.
Definition sum (t : tensor2) : Z := fold_right (fun row acc => (sum_row row + acc)%Z) 0%Z t.

(** Lockstep combination of two lists (element-wise tensor operations). *)
Fixpoint map2 {A B C : Type} (f : A -> B -> C) (xs : list A) (ys : list B) : list C :=
  match xs, ys with
  | x :: xs', y :: ys' => f x y :: map2 f xs' ys'
  | _, _ => []
  end.

(** ** Arguments of dynamic type

    [batch_text] is checked with [type(batch_text) in [list, tuple]]. *)
Inductive pyseq : Set :=
| PyList (xs : list string)
| PyTuple (xs : list string)
| PyStr (s : string).

Definition is_list_or_tuple (a : pyseq) : bool :=
  match a with
  | PyList _ | PyTuple _ => true
  | PyStr _ => false
  end.

(** Iterating over the argument: the elements of a list or tuple, the
    one-character strings of a [str]. *)
Definition items (a : pyseq) : list string :=
  match a with
  | PyList xs | PyTuple xs => xs
  | PyStr s => map (fun c => String c EmptyString) (list_ascii_of_string s)
  end.

(** ** The tokenizer collaborator *)

Module Tok.

(** [self.tok]: the raw Hugging Face tokenizer, as far as the class uses it. *)
Record t : Type := {
  (* self.tok.tokenize(x, add_special_tokens=False) *)
  tokenize : string -> list string;
  (* self.tok([x], add_special_tokens=False)['input_ids'][0] *)
  input_ids : string -> list Z;
  (* self.tok(batch, padding='max_length', truncation=True,
              return_tensors='pt', max_length=n): (input_ids, attention_mask) *)
  call_max_length : list string -> Z -> tensor2 * tensor2;
  (* self.tok(batch, padding='longest', truncation=True,
              return_tensors='pt', max_length=n): (input_ids, attention_mask) *)
  call_longest : list string -> Z -> tensor2 * tensor2;
  convert_tokens_to_ids : string -> Z;
  cls_token : string;  cls_token_id : Z;
  sep_token : string;  sep_token_id : Z;
  mask_token : string; mask_token_id : Z;
  pad_token : string;  pad_token_id : Z
}.

End Tok.

(** An attention mask holds zeros and ones. *)
Definition bits (t : tensor2) : Prop :=
  Forall (Forall (fun b => b = 0%Z \/ b = 1%Z)) t.

(** What the class relies on from the tokenizer: a padded call with
    [return_tensors='pt'] returns two tensors of one shape, one row per input
    and zeros and ones in the mask; with [padding='max_length'] and truncation
    the width is [max_length] (the two special tokens fit from width 2 on);
    with [padding='longest'] the width is that of the longest row, which holds
    at least its leading special token. *)
Record TokContract (tk : Tok.t) : Prop := {
  max_length_shape : forall batch n, exists w,
    shape (fst (Tok.call_max_length tk batch n)) (length batch) w /\
    shape (snd (Tok.call_max_length tk batch n)) (length batch) w /\
    ((2 <= n)%Z -> w = Z.to_nat n);
  max_length_bits : forall batch n, bits (snd (Tok.call_max_length tk batch n));
  longest_shape : forall batch n, exists w, 1 <= w /\
    shape (fst (Tok.call_longest tk batch n)) (length batch) w /\
    shape (snd (Tok.call_longest tk batch n)) (length batch) w;
  longest_bits : forall batch n, bits (snd (Tok.call_longest tk batch n))
}.

(** ** Configuration *)

Module Config.

(** The fields of [ColBERTConfig] that the class reads. *)
Record t : Type := {
  query_maxlen : Z;
  query_token : string;
  query_token_id : string;
  query_pad_tok : string;
  cap_padding : Z;
  attend_to_mask_tokens : bool
}.

End Config.

(** ** The class *)

Record QueryTokenizer : Type := {
  tok : Tok.t;
  config : Config.t;
  query_maxlen : Z;
  background_maxlen : Z;
  Q_marker_token : string; Q_marker_token_id : Z;
  cls_token : string;      cls_token_id : Z;
  sep_token : string;      sep_token_id : Z;
  mask_token : string;     mask_token_id : Z;
  pad_token : string;      pad_token_id : Z
}.

(** [QueryTokenizer.__init__] *)
Definition init (cfg : Config.t) (tk : Tok.t) : QueryTokenizer := {|
  tok := tk;
  config := cfg;
  query_maxlen := Config.query_maxlen cfg;
  background_maxlen := 512 - Config.query_maxlen cfg + 1;
  Q_marker_token := Config.query_token cfg;
  Q_marker_token_id := Tok.convert_tokens_to_ids tk (Config.query_token_id cfg);
  cls_token := Tok.cls_token tk;   cls_token_id := Tok.cls_token_id tk;
  sep_token := Tok.sep_token tk;   sep_token_id := Tok.sep_token_id tk;
  mask_token := Tok.mask_token tk; mask_token_id := Tok.mask_token_id tk;
  pad_token := Tok.pad_token tk;   pad_token_id := Tok.pad_token_id tk
|}.

(** [x * n] for a list [x] of one element: empty when [n <= 0]. *)
Definition times {A : Type} (x : A) (n : Z) : list A := repeat x (Z.to_nat n).

(** [prefix + lst + suffix + [m] * (query_maxlen - (len(lst)+3))] *)
Definition frame {A : Type} (maxlen : Z) (prefix suffix : list A) (m : A) (lst : list A) : list A :=
  ((prefix ++ lst) ++ suffix) ++ times m (maxlen - (Z.of_nat (length lst) + 3)).

(** [QueryTokenizer.tokenize] *)
Definition tokenize (self : QueryTokenizer) (batch_text : pyseq) (add_special_tokens : bool)
  : result (list (list string)) :=
  _ <- assert (is_list_or_tuple batch_text) TypeKind ;;
  let tokens := map (Tok.tokenize (tok self)) (items batch_text) in
  if negb add_special_tokens then Ok tokens
  else
    let prefix := [cls_token self; Q_marker_token self] in
    let suffix := [sep_token self] in
    Ok (map (frame (query_maxlen self) prefix suffix (mask_token self)) tokens).

(** [QueryTokenizer.encode] *)
Definition encode (self : QueryTokenizer) (batch_text : pyseq) (add_special_tokens : bool)
  : result (list (list Z)) :=
  _ <- assert (is_list_or_tuple batch_text) TypeKind ;;
  let ids := map (Tok.input_ids (tok self)) (items batch_text) in
  if negb add_special_tokens then Ok ids
  else
    let prefix := [cls_token_id self; Q_marker_token_id self] in
    let suffix := [sep_token_id self] in
    Ok (map (frame (query_maxlen self) prefix suffix (mask_token_id self)) ids).

(** [QueryTokenizer.max_len] *)
Definition max_len (self : QueryTokenizer) (length : Z) : Z :=
  Z.min 500 (Z.max (query_maxlen self) length).

(** ** Tensor operations of [tensorize] *)

(** A slice bound [n] on a dimension of [len] elements, as Python
    normalises it: a negative bound counts from the end, and the result is
    clipped to [0 .. len]. *)
Definition slice_bound (n : Z) (len : nat) : nat :=
  if (n <? 0)%Z then Z.to_nat (Z.max 0 (Z.of_nat len + n))
  else Nat.min (Z.to_nat n) len.

(** [row[n:] = v] *)
Definition fill_from (n : Z) (v : Z) (row : list Z) : list Z :=
  let start := slice_bound n (length row) in
  firstn start row ++ repeat v (length row - start).

(** [row[:n]] *)
Definition take_cols (n : Z) (row : list Z) : list Z :=
  firstn (slice_bound n (length row)) row.

(** [row[j] = v] for an index [j] of the row. *)
Fixpoint set_nth (j : nat) (v : Z) (row : list Z) : list Z :=
  match row, j with
  | [], _ => []
  | _ :: rest, O => v :: rest
  | x :: rest, S j' => x :: set_nth j' v rest
  end.

(** [t[i] = f(t[i])] *)
Fixpoint update_row (i : nat) (f : list Z -> list Z) (t : tensor2) : tensor2 :=
  match t, i with
  | [], _ => []
  | row :: rest, O => f row :: rest
  | row :: rest, S i' => row :: update_row i' f rest
  end.

(** [ids[:, 1] = v]: an index error when there is no column 1. *)
Definition set_column1 (v : Z) (ids : tensor2) : result tensor2 :=
  if size1 ids <=? 1 then Raise IndexError
  else Ok (map (set_nth 1 v) ids).

(** [(ids != pad).sum(dim=1)] *)
Definition count_ne (pad : Z) (row : list Z) : Z :=
  Z.of_nat (length (filter (fun x => negb (x =? pad)%Z) row)).

Definition sizes_ne (pad : Z) (ids : tensor2) : list Z := map (count_ne pad) ids.

(** [ids[ids == a] = b] *)
Definition replace (a b : Z) (ids : tensor2) : tensor2 :=
  map (map (fun x => if (x =? a)%Z then b else x)) ids.

(** [mask[ids == a] = b]; the two tensors have one shape. *)
Definition masked_set (a b : Z) (ids mask : tensor2) : tensor2 :=
  map2 (map2 (fun x m => if (x =? a)%Z then b else m)) ids mask.

(** [max(...)] over a sequence. *)
Definition py_max (xs : list Z) : result Z :=
  match xs with
  | [] => Raise ValueError
  | x :: rest => Ok (fold_left Z.max rest x)
  end.

(** [torch.cat((a, b), dim=-1)] *)
Definition cat (a b : tensor2) : result tensor2 :=
  if length a =? length b then Ok (map2 (@app Z) a b) else Raise RuntimeError.

(** Modelled from the spec: [_split_into_batches] lives in
    [colbert/modeling/tokenization/utils.py], which is not among the sources.
    The spec has it split [(ids, mask)] into consecutive chunks of [bsize]
    rows along the batch axis, in order. *)
Fixpoint chunks (fuel bsize : nat) (ids mask : tensor2) : list (tensor2 * tensor2) :=
  match fuel, ids with
  | S fuel', _ :: _ =>
      (firstn bsize ids, firstn bsize mask)
        :: chunks fuel' bsize (skipn bsize ids) (skipn bsize mask)
  | _, _ => []
  end.

Definition _split_into_batches (ids mask : tensor2) (bsize : Z) : list (tensor2 * tensor2) :=
  if (bsize <=? 0)%Z then [] else chunks (length ids) (Z.to_nat bsize) ids mask.

(** ** [QueryTokenizer.tensorize], stage by stage *)

(** What [tensorize] returns: the pair, or the list of sub-batches. *)
Inductive output : Set :=
| Pair (ids mask : tensor2)
| Batches (batches : list (tensor2 * tensor2)).

Section Tensorize.

Variable self : QueryTokenizer.

Let cap_padding := Config.cap_padding (config self).

(** Lines 63-72: the value of [max_length] handed to the tokenizer.
    [batch_text] already carries the ". " prefix. *)
Definition target_length (batch_text : list string) (full_length_search : bool) : result Z :=
  if full_length_search then
    let un_truncated_ids := map (Tok.input_ids (tok self)) batch_text in
    max_length_in_batch <- py_max (map (fun x => Z.of_nat (length x)) un_truncated_ids) ;;
    Ok (max_len self max_length_in_batch)
  else Ok (query_maxlen self).

(** Lines 54-81: checks, placeholder prefix, tokenizer call, marker. *)
Definition marked (batch_text : pyseq) (full_length_search : bool)
  : result (tensor2 * tensor2) :=
  _ <- assert (is_list_or_tuple batch_text) TypeKind ;;
  let batch_text := map (String.append ". ") (items batch_text) in
  _ <- assert (negb full_length_search || (length batch_text =? 1)) InvalidArgument ;;
  max_length <- target_length batch_text full_length_search ;;
  let '(ids, mask) := Tok.call_max_length (tok self) batch_text max_length in
  ids <- set_column1 (Q_marker_token_id self) ids ;;
  Ok (ids, mask).

(** Line 82 *)
Definition unpadded_sizes (ids : tensor2) : list Z := sizes_ne (pad_token_id self) ids.

(** Lines 85-86 *)
Definition pad_policy (st : tensor2 * tensor2) : tensor2 * tensor2 :=
  let '(ids, mask) := st in
  if String.eqb (Config.query_pad_tok (config self)) "mask"
  then (replace (pad_token_id self) (mask_token_id self) ids, mask)
  else (ids, mask).

(** Lines 91-96: the body of the loop over the rows. *)
Definition cap_row (sizes : list Z) (st : tensor2 * tensor2) (i : nat) : tensor2 * tensor2 :=
  let '(ids, mask) := st in
  let unpadded_size := nth i sizes 0%Z in
  let max_allowed_length := (unpadded_size + cap_padding)%Z in
  if (Z.of_nat (size1 ids) >? max_allowed_length)%Z then
    (update_row i (fill_from max_allowed_length (pad_token_id self)) ids,
     update_row i (fill_from max_allowed_length 0%Z) mask)
  else (ids, mask).

(** Lines 90-96 *)
Definition cap_rows (sizes : list Z) (st : tensor2 * tensor2) : tensor2 * tensor2 :=
  fold_left (cap_row sizes) (seq 0 (size0 (fst st))) st.

(** Lines 98-99: the width the batch is trimmed to. *)
Definition trim_width (sizes : list Z) (ids : tensor2) : result Z :=
  max_length <- py_max (map (fun unpadded_size => (unpadded_size + cap_padding)%Z) sizes) ;;
  Ok (Z.min max_length (Z.of_nat (size1 ids))).

(** Lines 89-101 *)
Definition cap (sizes : list Z) (st : tensor2 * tensor2) : result (tensor2 * tensor2) :=
  if (cap_padding >? 0)%Z then
    let '(ids, mask) := cap_rows sizes st in
    max_length <- trim_width sizes ids ;;
    Ok (map (take_cols max_length) ids, map (take_cols max_length) mask)
  else Ok st.

(** Lines 105-114; [len(batch_text)] is the length of the prefixed list,
    which is that of the argument. *)
Definition splice (batch_text : pyseq) (context : option (list string))
  (st : tensor2 * tensor2) : result (tensor2 * tensor2) :=
  match context with
  | None => Ok st
  | Some context =>
      let '(ids, mask) := st in
      _ <- assert (length context =? length (items batch_text)) InvalidArgument ;;
      let '(ids_o, mask_o) :=
        Tok.call_longest (tok self) context (background_maxlen self) in
      let ids_2 := map (skipn 1) ids_o in
      let mask_2 := map (skipn 1) mask_o in
      ids <- cat ids ids_2 ;;
      mask <- cat mask mask_2 ;;
      Ok (ids, mask)
  end.

(** Lines 116-118 *)
Definition attend (st : tensor2 * tensor2) : result (tensor2 * tensor2) :=
  let '(ids, mask) := st in
  if Config.attend_to_mask_tokens (config self) then
    let mask := masked_set (mask_token_id self) 1%Z ids mask in
    _ <- assert (sum mask =? Z.of_nat (size0 mask) * Z.of_nat (size1 mask))%Z
           InvariantViolation ;;
    Ok (ids, mask)
  else Ok (ids, mask).

(** Lines 120-137; [if bsize:] is false for [None] and for [0].  The
    diagnostic printing is dead code ([self.used] is set just before it is
    tested) and is left out. *)
Definition finish (bsize : option Z) (st : tensor2 * tensor2) : output :=
  let '(ids, mask) := st in
  match bsize with
  | Some b => if (b =? 0)%Z then Pair ids mask
              else Batches (_split_into_batches ids mask b)
  | None => Pair ids mask
  end.

(** Lines 54-101: the query side, before any context is spliced in. *)
Definition query_side (batch_text : pyseq) (full_length_search : bool)
  : result (tensor2 * tensor2) :=
  '(ids, mask) <- marked batch_text full_length_search ;;
  let sizes := unpadded_sizes ids in
  cap sizes (pad_policy (ids, mask)).

(** [QueryTokenizer.tensorize] *)
Definition tensorize (batch_text : pyseq) (bsize : option Z)
  (context : option (list string)) (full_length_search : bool) : result output :=
  st <- query_side batch_text full_length_search ;;
  st <- splice batch_text context st ;;
  st <- attend st ;;
  Ok (finish bsize st).

End Tensorize.

(** ** A small concrete tokenizer

    A BERT-like tokenizer over a character vocabulary, used to run the
    methods on concrete queries: every non-blank character is one token,
    [[CLS]] and [[SEP]] frame a sequence, [[PAD]] fills it. *)

Module Toy.

Open Scope string_scope.

Definition PAD : Z := 0.
Definition UNUSED0 : Z := 1.
Definition UNK : Z := 100.
Definition CLS : Z := 101.
Definition SEP : Z := 102.
Definition MASK : Z := 103.

Definition is_blank (c : Ascii.ascii) : bool := Ascii.eqb c " "%char.

Definition chars (x : string) : list Ascii.ascii :=
  filter (fun c => negb (is_blank c)) (list_ascii_of_string x).

Definition tokenize (x : string) : list string :=
  map (fun c => String c EmptyString) (chars x).

Definition input_ids (x : string) : list Z :=
  map (fun c => (1000 + Z.of_nat (Ascii.nat_of_ascii c))%Z) (chars x).

(** [[CLS]] + at most [n - 2] tokens + [[SEP]] *)
Definition framed (n : nat) (x : string) : list Z :=
  [CLS] ++ firstn (n - 2) (input_ids x) ++ [SEP].

Definition pad_ids (w : nat) (row : list Z) : list Z :=
  row ++ repeat PAD (w - length row).

Definition pad_mask (w : nat) (row : list Z) : list Z :=
  repeat 1%Z (length row) ++ repeat 0%Z (w - length row).

Definition call_max_length (batch : list string) (n : Z) : tensor2 * tensor2 :=
  let rows := map (framed (Z.to_nat n)) batch in
  (map (pad_ids (Z.to_nat n)) rows, map (pad_mask (Z.to_nat n)) rows).

Definition call_longest (batch : list string) (n : Z) : tensor2 * tensor2 :=
  let rows := map (framed (Z.to_nat n)) batch in
  let w := list_max (map (@length Z) rows) in
  (map (pad_ids w) rows, map (pad_mask w) rows).

Definition convert_tokens_to_ids (token : string) : Z :=
  if String.eqb token "[PAD]" then PAD
  else if String.eqb token "[unused0]" then UNUSED0
  else if String.eqb token "[CLS]" then CLS
  else if String.eqb token "[SEP]" then SEP
  else if String.eqb token "[MASK]" then MASK
  else UNK.

Definition tokenizer : Tok.t := {|
  Tok.tokenize := tokenize;
  Tok.input_ids := input_ids;
  Tok.call_max_length := call_max_length;
  Tok.call_longest := call_longest;
  Tok.convert_tokens_to_ids := convert_tokens_to_ids;
  Tok.cls_token := "[CLS]";   Tok.cls_token_id := CLS;
  Tok.sep_token := "[SEP]";   Tok.sep_token_id := SEP;
  Tok.mask_token := "[MASK]"; Tok.mask_token_id := MASK;
  Tok.pad_token := "[PAD]";   Tok.pad_token_id := PAD
|}.

(** A configuration: [query_maxlen], [query_pad_tok], [cap_padding],
    [attend_to_mask_tokens]. *)
Definition cfg (maxlen : Z) (pad_tok : string) (cap : Z) (att : bool) : Config.t := {|
  Config.query_maxlen := maxlen;
  Config.query_token := "[Q]";
  Config.query_token_id := "[unused0]";
  Config.query_pad_tok := pad_tok;
  Config.cap_padding := cap;
  Config.attend_to_mask_tokens := att
|}.

Definition qt (maxlen : Z) (pad_tok : string) (cap : Z) (att : bool) : QueryTokenizer :=
  init (cfg maxlen pad_tok cap att) tokenizer.

End Toy.

(** ** Definitions used by the statements *)

(** The framing in the words of the specification:
    [[begin, marker] + tokens + [separator] + [mask] * pad_count] with
    [pad_count = query_maxlen - (len(tokens) + 3)]. *)
Definition spec_framing {A : Type} (begin marker separator mask : A) (maxlen : Z)
  (tokens : list A) : list A :=
  let pad_count := (maxlen - (Z.of_nat (length tokens) + 3))%Z in
  [begin; marker] ++ tokens ++ [separator] ++ times mask pad_count.

(** [m] is the greatest element of [xs]. *)
Definition is_max (m : Z) (xs : list Z) : Prop :=
  In m xs /\ Forall (fun x => (x <= m)%Z) xs.

(** What the loop of lines 90-96 does to row [i] of a tensor of width [w],
    writing [v] from the cap on. *)
Definition capped (self : QueryTokenizer) (sizes : list Z) (w : nat) (v : Z) (i : nat)
  (row : list Z) : list Z :=
  let max_allowed_length := (nth i sizes 0%Z + Config.cap_padding (config self))%Z in
  if (Z.of_nat w >? max_allowed_length)%Z then fill_from max_allowed_length v row
  else row.



(** What lines 81-86 make of a token id of the tokenizer in column [j]. *)
Definition postprocessed (self : QueryTokenizer) (j : nat) (x : Z) : Z :=
  if j =? 1 then Q_marker_token_id self
  else if String.eqb (Config.query_pad_tok (config self)) "mask"
          && (x =? pad_token_id self)%Z
       then mask_token_id self
       else x.

(** ** Mixed precision: [colbert/utils/amp.py]

    [MixedPrecisionManager] drives torch objects (the gradient scaler, the
    optimizer, the scheduler, the loss).  What it does to them is the sequence
    of calls it makes, recorded as events; [self.scaler] exists only when the
    constructor created it, and reading it otherwise is an [AttributeError]. *)

Module Amp.

Inductive event : Set :=
| GradScaler_new      (* torch.GradScaler() *)
| scale_backward      (* self.scaler.scale(loss).backward() *)
| loss_backward       (* loss.backward() *)
| unscale_            (* self.scaler.unscale_(optimizer) *)
| clip_grad_norm_ (max_norm : Z) (error_if_nonfinite : option bool)
                      (* torch.nn.utils.clip_grad_norm_(colbert.parameters(), 2.0, ...) *)
| scaler_step         (* self.scaler.step(optimizer) *)
| scaler_update       (* self.scaler.update() *)
| optimizer_step      (* optimizer.step() *)
| scheduler_step.     (* scheduler.step() *)

(** What [context()] returns. *)
Inductive context_manager : Set :=
| autocast_cuda       (* torch.autocast(device_type='cuda') *)
| nullcontext.        (* contextlib.nullcontext() *)

Inductive outcome : Set :=
| Done (calls : list event)
| AttributeError.

(** The object: [self.activated], and [self.scaler] when it was set. *)
Record t : Set := {
  activated : bool;
  scaler : option unit
}.

(** [MixedPrecisionManager.__init__]: the object and the calls made. *)
Definition init (activated : bool) : t * list event :=
  if activated then ({| activated := true; scaler := Some tt |}, [GradScaler_new])
  else ({| activated := false; scaler := None |}, []).

(** [MixedPrecisionManager.context] *)
Definition context (self : t) : context_manager :=
  if activated self then autocast_cuda else nullcontext.

(** A block of calls that starts by reading [self.scaler]. *)
Definition with_scaler (self : t) (calls : list event) : outcome :=
  match scaler self with
  | Some _ => Done calls
  | None => AttributeError
  end.

(** [MixedPrecisionManager.backward] *)
Definition backward (self : t) : outcome :=
  if activated self then with_scaler self [scale_backward]
  else Done [loss_backward].

(** [MixedPrecisionManager.step]; [scheduler] tells whether the argument is
    not [None].  The float literal [2.0] is the integer 2. *)
Definition step (self : t) (scheduler : bool) : outcome :=
  let last := if scheduler then [scheduler_step] else [] in
  if activated self then
    with_scaler self
      ([unscale_]
         ++ (if scheduler then [clip_grad_norm_ 2 (Some false)] else [])
         ++ [scaler_step; scaler_update] ++ last)
  else
    Done ((if scheduler then [clip_grad_norm_ 2 None] else [])
            ++ [optimizer_step] ++ last).

Definition is_step_call (e : event) : bool :=
  match e with
  | scaler_step | optimizer_step => true
  | _ => false
  end.

Definition is_clip (e : event) : bool :=
  match e with
  | clip_grad_norm_ _ _ => true
  | _ => false
  end.

Definition uses_scaler (e : event) : bool :=
  match e with
  | GradScaler_new | scale_backward | unscale_ | scaler_step | scaler_update => true
  | _ => false
  end.

(** The clip call and the step call that [step] makes, by [self.activated]. *)
Definition clip_of (a : bool) : event :=
  clip_grad_norm_ 2 (if a then Some false else None).

Definition step_call_of (a : bool) : event :=
  if a then scaler_step else optimizer_step.

(** [x] is called before [y] in [calls]. *)
Definition before (x y : event) (calls : list event) : Prop :=
  exists l1 l2 l3, calls = l1 ++ x :: l2 ++ y :: l3.

End Amp.

(** * Properties *)

(** ** The error monad *)

Lemma bind_Ok {A B : Type} (r : result A) (k : A -> result B) (b : B) :
  bind r k = Ok b -> exists a, r = Ok a /\ k a = Ok b.
Proof.
  destruct r as [a | e]; simpl; intros H.
  - exists a; split; [reflexivity | exact H].
  - discriminate H.
Qed.

Lemma assert_Ok (b : bool) (k : error_kind) (u : unit) :
  assert b k = Ok u -> b = true.
Proof. destruct b; simpl; [reflexivity | discriminate]. Qed.

(** ** Shapes *)

Lemma shape_size1 (t : tensor2) (n w : nat) :
  shape t n w -> n <> 0 -> size1 t = w.
Proof.
  intros [Hn Hw] Hpos. destruct t as [| row rest]; simpl in *.
  - congruence.
  - now inversion Hw.
Qed.

Lemma shape_size0 (t : tensor2) (n w : nat) : shape t n w -> size0 t = n.
Proof. now intros [Hn _]. Qed.

Lemma shape_map (f : list Z -> list Z) (t : tensor2) (n w w' : nat) :
  (forall row, length row = w -> length (f row) = w') ->
  shape t n w -> shape (map f t) n w'.
Proof.
  intros Hf [Hn Hw]. split.
  - now rewrite length_map.
  - apply Forall_map. eapply Forall_impl; [| exact Hw]. exact Hf.
Qed.

Lemma shape_row (t : tensor2) (n w i : nat) (row : list Z) :
  shape t n w -> nth_error t i = Some row -> length row = w.
Proof.
  intros [_ Hw] Hi. apply nth_error_In in Hi.
  rewrite Forall_forall in Hw. now apply Hw.
Qed.

Lemma shape_unique (t : tensor2) (n w w' : nat) :
  shape t n w -> shape t n w' -> n <> 0 -> w = w'.
Proof.
  intros H1 H2 Hn.
  rewrite <- (shape_size1 H1 Hn). now apply shape_size1 with (n := n).
Qed.

Lemma shape_shapeb (t : tensor2) (n w : nat) : shapeb t n w = true <-> shape t n w.
Proof.
  unfold shapeb, shape. rewrite andb_true_iff, Nat.eqb_eq, forallb_forall, Forall_forall.
  split; intros [Hn Hw]; split; trivial; intros row Hrow.
  - apply Nat.eqb_eq. now apply Hw.
  - apply Nat.eqb_eq. now apply Hw.
Qed.

(** ** Row operations *)

Lemma set_nth_length (j : nat) (v : Z) (row : list Z) :
  length (set_nth j v row) = length row.
Proof.
  revert j. induction row as [| x rest IH]; intros [| j]; simpl; auto.
Qed.

Lemma nth_error_set_nth (j : nat) (v : Z) (row : list Z) (k : nat) :
  nth_error (set_nth j v row) k =
  if (k =? j) && (j <? length row) then Some v else nth_error row k.
Proof.
  revert j k. induction row as [| x rest IH]; intros j k.
  - destruct j, k; simpl; try reflexivity; now rewrite andb_false_r.
  - destruct j as [| j], k as [| k]; simpl; try reflexivity.
    rewrite IH. reflexivity.
Qed.

Lemma nth_error_firstn_lt {A : Type} (n j : nat) (l : list A) :
  j < n -> nth_error (firstn n l) j = nth_error l j.
Proof.
  intros Hj. rewrite nth_error_firstn.
  destruct (j <? n) eqn:E; [reflexivity | apply Nat.ltb_ge in E; lia].
Qed.

Lemma Forall_take {A : Type} (P : A -> Prop) (n : nat) (l : list A) :
  Forall P l -> Forall P (firstn n l).
Proof.
  intros H. rewrite <- (firstn_skipn n l) in H. now apply Forall_app in H.
Qed.

Lemma Forall_drop {A : Type} (P : A -> Prop) (n : nat) (l : list A) :
  Forall P l -> Forall P (skipn n l).
Proof.
  intros H. rewrite <- (firstn_skipn n l) in H. now apply Forall_app in H.
Qed.

Lemma slice_bound_le (n : Z) (len : nat) : slice_bound n len <= len.
Proof. unfold slice_bound. destruct (n <? 0)%Z eqn:E; lia. Qed.

Lemma slice_bound_nonneg (n : Z) (len : nat) :
  (0 <= n)%Z -> slice_bound n len = Nat.min (Z.to_nat n) len.
Proof.
  intros Hn. unfold slice_bound.
  destruct (n <? 0)%Z eqn:E; [apply Z.ltb_lt in E; lia | reflexivity].
Qed.

Lemma fill_from_length (n v : Z) (row : list Z) :
  length (fill_from n v row) = length row.
Proof.
  unfold fill_from. rewrite length_app, length_firstn, repeat_length.
  pose proof (slice_bound_le n (length row)). lia.
Qed.

Lemma nth_error_fill_from (n v : Z) (row : list Z) (j : nat) :
  (0 <= n)%Z -> j < length row ->
  nth_error (fill_from n v row) j =
  if (n <=? Z.of_nat j)%Z then Some v else nth_error row j.
Proof.
  intros Hn Hj. unfold fill_from. rewrite slice_bound_nonneg by assumption.
  destruct (n <=? Z.of_nat j)%Z eqn:E.
  - apply Z.leb_le in E.
    rewrite nth_error_app2 by (rewrite length_firstn; lia).
    rewrite length_firstn. apply nth_error_repeat. lia.
  - apply Z.leb_gt in E.
    rewrite nth_error_app1 by (rewrite length_firstn; lia).
    apply nth_error_firstn_lt. lia.
Qed.

Lemma take_cols_length (n : Z) (row : list Z) :
  (0 <= n)%Z -> length (take_cols n row) = Nat.min (Z.to_nat n) (length row).
Proof.
  intros Hn. unfold take_cols. rewrite slice_bound_nonneg by assumption.
  rewrite length_firstn. lia.
Qed.

Lemma nth_error_take_cols (n : Z) (row : list Z) (j : nat) :
  (0 <= n)%Z -> (Z.of_nat j < n)%Z ->
  nth_error (take_cols n row) j = nth_error row j.
Proof.
  intros Hn Hj. unfold take_cols. rewrite slice_bound_nonneg by assumption.
  destruct (Nat.lt_ge_cases j (length row)) as [Hlt | Hge].
  - apply nth_error_firstn_lt. lia.
  - assert (H1 : nth_error row j = None) by (apply nth_error_None; lia).
    rewrite H1. apply nth_error_None. rewrite length_firstn. lia.
Qed.

Lemma update_row_length (i : nat) (f : list Z -> list Z) (t : tensor2) :
  length (update_row i f t) = length t.
Proof.
  revert i. induction t as [| row rest IH]; intros [| i]; simpl; auto.
Qed.

Lemma nth_error_update_row (i : nat) (f : list Z -> list Z) (t : tensor2) (k : nat) :
  nth_error (update_row i f t) k =
  if k =? i then option_map f (nth_error t k) else nth_error t k.
Proof.
  revert i k. induction t as [| row rest IH]; intros i k.
  - destruct i, k; simpl; try reflexivity; now destruct (k =? i).
  - destruct i as [| i], k as [| k]; simpl; try reflexivity. apply IH.
Qed.

Lemma update_row_size1 (i : nat) (f : list Z -> list Z) (t : tensor2) :
  (forall row, length (f row) = length row) ->
  size1 (update_row i f t) = size1 t.
Proof.
  intros Hf. destruct t as [| row rest]; destruct i; simpl; auto.
Qed.

(** ** [tokenize], [encode] and [max_len] *)

Lemma frame_spec_framing {A : Type} (begin marker separator mask : A) (maxlen : Z)
  (tokens : list A) :
  frame maxlen [begin; marker] [separator] mask tokens =
  spec_framing begin marker separator mask maxlen tokens.
Proof. unfold frame, spec_framing. now rewrite <- !app_assoc. Qed.

Lemma tokenize_special (self : QueryTokenizer) (batch : pyseq) :
  is_list_or_tuple batch = true ->
  tokenize self batch true =
  Ok (map (fun x => spec_framing (cls_token self) (Q_marker_token self) (sep_token self)
                      (mask_token self) (query_maxlen self) (Tok.tokenize (tok self) x))
        (items batch)).
Proof.
  intros Hb. unfold tokenize. rewrite Hb. simpl. f_equal.
  rewrite map_map. apply map_ext. intros x. apply frame_spec_framing.
Qed.

Lemma encode_special (self : QueryTokenizer) (batch : pyseq) :
  is_list_or_tuple batch = true ->
  encode self batch true =
  Ok (map (fun x => spec_framing (cls_token_id self) (Q_marker_token_id self)
                      (sep_token_id self) (mask_token_id self) (query_maxlen self)
                      (Tok.input_ids (tok self) x))
        (items batch)).
Proof.
  intros Hb. unfold encode. rewrite Hb. simpl. f_equal.
  rewrite map_map. apply map_ext. intros x. apply frame_spec_framing.
Qed.

(** C3: with [add_special_tokens] true, [tokenize] returns for each input the
    framing [[begin, marker] + tokens + [separator] + [mask] * pad_count] of
    its raw subword sequence, with [pad_count = query_maxlen - (len(tokens) + 3)],
    and [encode] builds the same framing over the token ids; the batch may be
    a list or a tuple. *)
Theorem tokenize_encode_framing (self : QueryTokenizer) (batch : list string) :
  let row_of x := spec_framing (cls_token self) (Q_marker_token self) (sep_token self)
                    (mask_token self) (query_maxlen self) (Tok.tokenize (tok self) x) in
  let ids_of x := spec_framing (cls_token_id self) (Q_marker_token_id self)
                    (sep_token_id self) (mask_token_id self) (query_maxlen self)
                    (Tok.input_ids (tok self) x) in
  tokenize self (PyList batch) true = Ok (map row_of batch) /\
  tokenize self (PyTuple batch) true = Ok (map row_of batch) /\
  encode self (PyList batch) true = Ok (map ids_of batch) /\
  encode self (PyTuple batch) true = Ok (map ids_of batch).
Proof.
  cbv zeta. repeat split.
  - now apply (tokenize_special self (PyList batch)).
  - now apply (tokenize_special self (PyTuple batch)).
  - now apply (encode_special self (PyList batch)).
  - now apply (encode_special self (PyTuple batch)).
Qed.

Lemma spec_framing_over {A : Type} (b m s k : A) (maxlen : Z) (tokens : list A) :
  (Z.of_nat (length tokens) + 3 > maxlen)%Z ->
  spec_framing b m s k maxlen tokens = [b; m] ++ tokens ++ [s] /\
  times k (maxlen - (Z.of_nat (length tokens) + 3)) = [] /\
  length (spec_framing b m s k maxlen tokens) = length tokens + 3.
Proof.
  intros Hlen. unfold spec_framing, times.
  replace (Z.to_nat (maxlen - (Z.of_nat (length tokens) + 3))) with 0 by lia.
  simpl. repeat split.
  rewrite length_app. simpl. lia.
Qed.

(** C10: when [len(tokens) + 3 > query_maxlen] for the input at position [i],
    [tokenize] and [encode] with [add_special_tokens] true raise nothing and
    append no mask token: row [i] is [[begin, marker] + tokens + [separator]],
    of length [len(tokens) + 3], which exceeds [query_maxlen]. *)
Theorem framing_over_budget (self : QueryTokenizer) (batch : list string)
  (i : nat) (x : string) :
  nth_error batch i = Some x ->
  let tokens := Tok.tokenize (tok self) x in
  let ids := Tok.input_ids (tok self) x in
  ((Z.of_nat (length tokens) + 3 > query_maxlen self)%Z ->
   exists rows row,
     tokenize self (PyList batch) true = Ok rows /\
     nth_error rows i = Some row /\
     row = [cls_token self; Q_marker_token self] ++ tokens ++ [sep_token self] /\
     length row = length tokens + 3 /\
     (Z.of_nat (length row) > query_maxlen self)%Z) /\
  ((Z.of_nat (length ids) + 3 > query_maxlen self)%Z ->
   exists rows row,
     encode self (PyList batch) true = Ok rows /\
     nth_error rows i = Some row /\
     row = [cls_token_id self; Q_marker_token_id self] ++ ids ++ [sep_token_id self] /\
     length row = length ids + 3 /\
     (Z.of_nat (length row) > query_maxlen self)%Z).
Proof.
  intros Hi tokens ids. split; intros Hover.
  - destruct (spec_framing_over (cls_token self) (Q_marker_token self) (sep_token self)
                (mask_token self) tokens Hover) as (Heq & _ & Hlen).
    eexists. eexists. split; [apply (tokenize_special self (PyList batch)); reflexivity |].
    split; [simpl; rewrite nth_error_map, Hi; reflexivity |].
    fold tokens. rewrite Hlen. repeat split; [exact Heq | lia].
  - destruct (spec_framing_over (cls_token_id self) (Q_marker_token_id self)
                (sep_token_id self) (mask_token_id self) ids Hover) as (Heq & _ & Hlen).
    eexists. eexists. split; [apply (encode_special self (PyList batch)); reflexivity |].
    split; [simpl; rewrite nth_error_map, Hi; reflexivity |].
    fold ids. rewrite Hlen. repeat split; [exact Heq | lia].
Qed.

Lemma framing_over_budget_witness :
  let self := Toy.qt 8 "mask" 0 false in
  let batch := ["ab"; "abcdefgh"]%string in
  nth_error batch 1 = Some "abcdefgh"%string /\
  (Z.of_nat (length (Tok.tokenize (tok self) "abcdefgh")) + 3 > query_maxlen self)%Z /\
  (Z.of_nat (length (Tok.input_ids (tok self) "abcdefgh")) + 3 > query_maxlen self)%Z /\
  (exists rows row,
     tokenize self (PyList batch) true = Ok rows /\
     nth_error rows 1 = Some row /\
     row = [cls_token self; Q_marker_token self]
             ++ Tok.tokenize (tok self) "abcdefgh" ++ [sep_token self] /\
     length row = length (Tok.tokenize (tok self) "abcdefgh") + 3 /\
     (Z.of_nat (length row) > query_maxlen self)%Z) /\
  (exists rows row,
     encode self (PyList batch) true = Ok rows /\
     nth_error rows 1 = Some row /\
     row = [cls_token_id self; Q_marker_token_id self]
             ++ Tok.input_ids (tok self) "abcdefgh" ++ [sep_token_id self] /\
     length row = length (Tok.input_ids (tok self) "abcdefgh") + 3 /\
     (Z.of_nat (length row) > query_maxlen self)%Z).
Proof.
  intros self batch.
  assert (H1 : nth_error batch 1 = Some "abcdefgh"%string) by reflexivity.
  assert (H2 : (Z.of_nat (length (Tok.tokenize (tok self) "abcdefgh")) + 3
                > query_maxlen self)%Z) by (vm_compute; reflexivity).
  assert (H3 : (Z.of_nat (length (Tok.input_ids (tok self) "abcdefgh")) + 3
                > query_maxlen self)%Z) by (vm_compute; reflexivity).
  destruct (@framing_over_budget self batch 1 _ H1) as [Ht He].
  split; [exact H1 |]. split; [exact H2 |]. split; [exact H3 |].
  split; [exact (Ht H2) | exact (He H3)].
Defined.

(** ** The concrete tokenizer meets the contract *)

Module ToyFacts.

Lemma framed_length (n : nat) (x : string) :
  2 <= length (Toy.framed n x) <= Nat.max 2 n.
Proof.
  unfold Toy.framed. rewrite !length_app, length_firstn.
  change (length [Toy.CLS]) with 1. change (length [Toy.SEP]) with 1. lia.
Qed.

Lemma pad_ids_length (w : nat) (row : list Z) :
  length row <= w -> length (Toy.pad_ids w row) = w.
Proof.
  intros H. unfold Toy.pad_ids. rewrite length_app, repeat_length. lia.
Qed.

Lemma pad_mask_length (w : nat) (row : list Z) :
  length row <= w -> length (Toy.pad_mask w row) = w.
Proof.
  intros H. unfold Toy.pad_mask. rewrite length_app, !repeat_length. lia.
Qed.

Lemma pad_mask_bits (w : nat) (row : list Z) :
  Forall (fun b => b = 0%Z \/ b = 1%Z) (Toy.pad_mask w row).
Proof.
  unfold Toy.pad_mask. apply Forall_app. split.
  - apply Forall_forall. intros b Hb. apply repeat_spec in Hb. now right.
  - apply Forall_forall. intros b Hb. apply repeat_spec in Hb. now left.
Qed.

Lemma padded_shape (pad : nat -> list Z -> list Z) (rows : list (list Z)) (w : nat) :
  (forall row, length row <= w -> length (pad w row) = w) ->
  Forall (fun row => length row <= w) rows ->
  shape (map (pad w) rows) (length rows) w.
Proof.
  intros Hpad Hrows. split.
  - apply length_map.
  - apply Forall_map. eapply Forall_impl; [| exact Hrows]. intros row. apply Hpad.
Qed.

Lemma rows_below_max (rows : list (list Z)) :
  Forall (fun row => length row <= list_max (map (@length Z) rows)) rows.
Proof.
  assert (H : Forall (fun k => k <= list_max (map (@length Z) rows))
                (map (@length Z) rows)) by (apply list_max_le; lia).
  rewrite Forall_map in H. exact H.
Qed.

Lemma contract : TokContract Toy.tokenizer.
Proof.
  constructor; simpl; intros batch n.
  - exists (Nat.max 2 (Z.to_nat n)).
    assert (Hrows : Forall (fun row => length row <= Nat.max 2 (Z.to_nat n))
                      (map (Toy.framed (Z.to_nat n)) batch)).
    { apply Forall_map, Forall_forall. intros x _. apply framed_length. }
    assert (Hw : forall pad,
               (forall row, length row <= Z.to_nat n -> length (pad (Z.to_nat n) row) = Z.to_nat n) ->
               (forall row, length (pad (Z.to_nat n) row) = Nat.max (Z.to_nat n) (length row)) ->
               shape (map (pad (Z.to_nat n)) (map (Toy.framed (Z.to_nat n)) batch))
                 (length batch) (Nat.max 2 (Z.to_nat n))).
    { intros pad _ Hlen. split; [now rewrite !length_map |].
      apply Forall_map, Forall_map, Forall_forall. intros x _.
      rewrite Hlen. pose proof (framed_length (Z.to_nat n) x). lia. }
    split; [| split].
    + apply Hw; [apply pad_ids_length |].
      intros row. unfold Toy.pad_ids. rewrite length_app, repeat_length. lia.
    + apply Hw; [apply pad_mask_length |].
      intros row. unfold Toy.pad_mask. rewrite length_app, !repeat_length. lia.
    + lia.
  - apply Forall_map, Forall_forall. intros row _. apply pad_mask_bits.
  - destruct batch as [| x batch'].
    + exists 1. repeat split; auto.
    + set (rows := map (Toy.framed (Z.to_nat n)) (x :: batch')).
      exists (list_max (map (@length Z) rows)).
      assert (Hlen : length rows = length (x :: batch')) by apply length_map.
      split; [| split].
      * pose proof (framed_length (Z.to_nat n) x) as Hx.
        assert (Hin : length (Toy.framed (Z.to_nat n) x) <= list_max (map (@length Z) rows)).
        { pose proof (rows_below_max rows) as Hall. rewrite Forall_forall in Hall.
          apply Hall. subst rows. now left. }
        lia.
      * rewrite <- Hlen. apply padded_shape; [apply pad_ids_length | apply rows_below_max].
      * rewrite <- Hlen. apply padded_shape; [apply pad_mask_length | apply rows_below_max].
  - apply Forall_map, Forall_forall. intros row _. apply pad_mask_bits.
Qed.

End ToyFacts.

(** ** The checks and the target length of [tensorize] *)

Lemma marked_full_length_not_single (self : QueryTokenizer) (batch : pyseq) :
  is_list_or_tuple batch = true ->
  length (items batch) <> 1 ->
  marked self batch true = Raise (AssertionError InvalidArgument).
Proof.
  intros Hty Hlen. unfold marked. rewrite Hty. simpl.
  rewrite length_map.
  destruct (length (items batch) =? 1) eqn:E; [apply Nat.eqb_eq in E; contradiction |].
  reflexivity.
Qed.

(** C6: with [full_length_search] true and a batch (list or tuple) whose
    length is not exactly 1, [tensorize] fails with InvalidArgument, whatever
    the other arguments are; it produces no output. *)
Theorem full_length_search_needs_single (self : QueryTokenizer) (batch : list string)
  (bsize : option Z) (context : option (list string)) :
  length batch <> 1 ->
  tensorize self (PyList batch) bsize context true = Raise (AssertionError InvalidArgument) /\
  tensorize self (PyTuple batch) bsize context true = Raise (AssertionError InvalidArgument).
Proof.
  intros Hlen. unfold tensorize, query_side.
  rewrite (@marked_full_length_not_single self (PyList batch)) by (trivial; assumption).
  rewrite (@marked_full_length_not_single self (PyTuple batch)) by (trivial; assumption).
  split; reflexivity.
Qed.

Lemma full_length_search_needs_single_witness :
  let self := Toy.qt 32 "mask" 0 false in
  let batch := ["what is colbert"; "who wrote it"]%string in
  length batch <> 1 /\
  tensorize self (PyList batch) None None true = Raise (AssertionError InvalidArgument) /\
  tensorize self (PyTuple batch) None None true = Raise (AssertionError InvalidArgument).
Proof.
  intros self batch.
  assert (H : length batch <> 1) by (simpl; lia).
  split; [exact H | exact (@full_length_search_needs_single self batch None None H)].
Defined.

Lemma max_len_bounds (self : QueryTokenizer) (length : Z) :
  (max_len self length <= 500)%Z /\
  ((query_maxlen self <= 500)%Z -> (query_maxlen self <= max_len self length)%Z) /\
  ((query_maxlen self <= length <= 500)%Z -> max_len self length = length).
Proof. unfold max_len. lia. Qed.

Lemma marked_single_full_length (self : QueryTokenizer) (x : string) :
  marked self (PyList [x]) true =
  (let n := Z.of_nat (length (Tok.input_ids (tok self) (". " ++ x))) in
   let '(ids, mask) :=
     Tok.call_max_length (tok self) [(". " ++ x)%string] (Z.min 500 (Z.max (query_maxlen self) n)) in
   ids <- set_column1 (Q_marker_token_id self) ids ;;
   Ok (ids, mask)).
Proof. reflexivity. Qed.

Lemma set_column1_Ok (v : Z) (ids ids' : tensor2) :
  set_column1 v ids = Ok ids' -> 2 <= size1 ids /\ ids' = map (set_nth 1 v) ids.
Proof.
  unfold set_column1. destruct (size1 ids <=? 1) eqn:E; [discriminate |].
  apply Nat.leb_gt in E. intros H. injection H as <-. split; [lia | reflexivity].
Qed.

Lemma set_column1_shape (v : Z) (ids : tensor2) (n w : nat) :
  shape ids n w -> n <> 0 -> 2 <= w ->
  set_column1 v ids = Ok (map (set_nth 1 v) ids) /\
  shape (map (set_nth 1 v) ids) n w.
Proof.
  intros Hs Hn Hw. unfold set_column1. rewrite (shape_size1 Hs Hn).
  destruct (w <=? 1) eqn:E; [apply Nat.leb_le in E; lia |].
  split; [reflexivity |].
  apply shape_map with (w := w); [| exact Hs].
  intros row Hrow. now rewrite set_nth_length.
Qed.

(** C9: [max_len(length)] is [min(500, max(query_maxlen, length))]; with
    [full_length_search] true, the padded tokenizer call of [tensorize] gets
    exactly this clamp of the untruncated tokenized length of the (single,
    prefixed) query as [max_length], and under the tokenizer contract the
    tensors it works on have that width. *)
Theorem max_len_is_target (self : QueryTokenizer) (x : string) :
  let n := Z.of_nat (length (Tok.input_ids (tok self) (". " ++ x))) in
  let target := Z.min 500 (Z.max (query_maxlen self) n) in
  (forall length : Z, max_len self length = Z.min 500 (Z.max (query_maxlen self) length)) /\
  target_length self [(". " ++ x)%string] true = Ok target /\
  marked self (PyList [x]) true =
    (let '(ids, mask) := Tok.call_max_length (tok self) [(". " ++ x)%string] target in
     ids <- set_column1 (Q_marker_token_id self) ids ;;
     Ok (ids, mask)) /\
  (TokContract (tok self) -> (2 <= query_maxlen self)%Z ->
   exists ids mask,
     marked self (PyList [x]) true = Ok (ids, mask) /\
     shape ids 1 (Z.to_nat target) /\ shape mask 1 (Z.to_nat target)).
Proof.
  intros n target. split; [reflexivity |]. split; [reflexivity |].
  split; [apply marked_single_full_length |].
  intros Hc Hq. rewrite marked_single_full_length. cbv zeta. fold n. fold target.
  destruct (max_length_shape Hc [(". " ++ x)%string] target) as (w & Hids & Hmask & Hw).
  assert (Ht : (2 <= target)%Z) by (unfold target; lia).
  specialize (Hw Ht). subst w.
  destruct (Tok.call_max_length (tok self) [(". " ++ x)%string] target) as [ids mask].
  simpl in Hids, Hmask.
  destruct (@set_column1_shape (Q_marker_token_id self) ids 1 (Z.to_nat target))
    as [Heq Hsh]; [exact Hids | lia | lia |].
  rewrite Heq. simpl. eexists. eexists. split; [reflexivity |]. split; assumption.
Qed.

Lemma max_len_is_target_witness :
  let self := Toy.qt 4 "mask" 0 false in
  TokContract (tok self) /\ (2 <= query_maxlen self)%Z /\
  max_len self 9 = 9%Z /\
  target_length self [". abcdefgh"%string] true = Ok 9%Z /\
  exists ids mask,
    marked self (PyList ["abcdefgh"%string]) true = Ok (ids, mask) /\
    shape ids 1 9 /\ shape mask 1 9.
Proof.
  intros self.
  assert (Hc : TokContract (tok self)) by exact ToyFacts.contract.
  assert (Hq : (2 <= query_maxlen self)%Z) by (vm_compute; discriminate).
  destruct (max_len_is_target self "abcdefgh") as (Hm & Ht & _ & Hw).
  split; [exact Hc |]. split; [exact Hq |].
  split; [rewrite Hm; reflexivity |]. split; [exact Ht |].
  exact (Hw Hc Hq).
Defined.

(** ** The stages of [tensorize], inverted *)

Lemma query_side_inv (self : QueryTokenizer) (batch : pyseq) (fls : bool)
  (st : tensor2 * tensor2) :
  query_side self batch fls = Ok st ->
  exists ids0 mask0,
    marked self batch fls = Ok (ids0, mask0) /\
    cap self (unpadded_sizes self ids0) (pad_policy self (ids0, mask0)) = Ok st.
Proof.
  unfold query_side. intros H. apply bind_Ok in H. destruct H as ([ids0 mask0] & Hm & Hc).
  now exists ids0, mask0.
Qed.

Lemma tensorize_inv (self : QueryTokenizer) (batch : pyseq) (bsize : option Z)
  (context : option (list string)) (fls : bool) (out : output) :
  tensorize self batch bsize context fls = Ok out ->
  exists st1 st2 st3,
    query_side self batch fls = Ok st1 /\
    splice self batch context st1 = Ok st2 /\
    attend self st2 = Ok st3 /\
    out = finish bsize st3.
Proof.
  unfold tensorize. intros H.
  apply bind_Ok in H. destruct H as (st1 & H1 & H).
  apply bind_Ok in H. destruct H as (st2 & H2 & H).
  apply bind_Ok in H. destruct H as (st3 & H3 & H).
  injection H as <-. now exists st1, st2, st3.
Qed.

Lemma attend_inv (self : QueryTokenizer) (st st' : tensor2 * tensor2) :
  attend self st = Ok st' ->
  fst st' = fst st /\
  (Config.attend_to_mask_tokens (config self) = false -> st' = st) /\
  (Config.attend_to_mask_tokens (config self) = true ->
   snd st' = masked_set (mask_token_id self) 1%Z (fst st) (snd st) /\
   sum (snd st') = (Z.of_nat (size0 (snd st')) * Z.of_nat (size1 (snd st')))%Z).
Proof.
  destruct st as [ids mask]. unfold attend.
  destruct (Config.attend_to_mask_tokens (config self)).
  - intros H. apply bind_Ok in H. destruct H as (u & Ha & H).
    injection H as <-. apply assert_Ok in Ha. apply Z.eqb_eq in Ha. simpl.
    repeat split; try discriminate; assumption.
  - intros H. injection H as <-. repeat split; discriminate.
Qed.

Lemma finish_Pair (bsize : option Z) (st : tensor2 * tensor2) (ids mask : tensor2) :
  finish bsize st = Pair ids mask -> st = (ids, mask).
Proof.
  destruct st as [i m]. unfold finish. destruct bsize as [b |].
  - destruct (b =? 0)%Z; [| discriminate]. intros H. now injection H as <- <-.
  - intros H. now injection H as <- <-.
Qed.

(** ** The pad policy *)

Lemma replace_no_more (a b : Z) (ids : tensor2) :
  b <> a -> Forall (Forall (fun x => x <> a)) (replace a b ids).
Proof.
  intros Hab. unfold replace. apply Forall_map, Forall_forall. intros row _.
  apply Forall_map, Forall_forall. intros x _.
  destruct (x =? a)%Z eqn:E; [exact Hab | now apply Z.eqb_neq].
Qed.

Lemma entry_map (f : Z -> Z) (t : tensor2) (i j : nat) :
  entry (map (map f) t) i j = option_map f (entry t i j).
Proof.
  unfold entry. rewrite nth_error_map.
  destruct (nth_error t i) as [row |]; simpl; [apply nth_error_map | reflexivity].
Qed.

Lemma replace_shape (a b : Z) (ids : tensor2) (n w : nat) :
  shape ids n w -> shape (replace a b ids) n w.
Proof.
  apply shape_map. intros row Hrow. now rewrite length_map.
Qed.

Lemma pad_policy_mask_eq (self : QueryTokenizer) (st : tensor2 * tensor2) :
  Config.query_pad_tok (config self) = "mask"%string ->
  pad_policy self st = (replace (pad_token_id self) (mask_token_id self) (fst st), snd st).
Proof.
  intros Hp. destruct st as [ids mask]. unfold pad_policy. rewrite Hp. reflexivity.
Qed.

Lemma pad_policy_snd (self : QueryTokenizer) (st : tensor2 * tensor2) :
  snd (pad_policy self st) = snd st.
Proof.
  destruct st as [ids mask]. unfold pad_policy.
  now destruct (String.eqb _ _).
Qed.

Lemma pad_policy_shape (self : QueryTokenizer) (st : tensor2 * tensor2) (n w : nat) :
  shape (fst st) n w -> shape (fst (pad_policy self st)) n w.
Proof.
  destruct st as [ids mask]. unfold pad_policy.
  destruct (String.eqb _ _); simpl; [apply replace_shape | trivial].
Qed.

Lemma cap_off (self : QueryTokenizer) (sizes : list Z) (st : tensor2 * tensor2) :
  (Config.cap_padding (config self) <= 0)%Z -> cap self sizes st = Ok st.
Proof.
  intros Hc. unfold cap.
  destruct (Config.cap_padding (config self) >? 0)%Z eqn:E; [| reflexivity].
  apply Z.gtb_lt in E. lia.
Qed.

(** C8: with the mask-token pad policy (and a vocabulary whose mask and pad
    ids differ), the pad-replacement step leaves no pad id in [ids]: an entry
    that was the pad id is the mask id, any other entry is kept, the shape is
    kept, and the attention mask is the one the step received.  With no cap
    and no context this is the [ids] tensor that [tensorize] returns. *)
Theorem pad_policy_replaces_pad (self : QueryTokenizer) (ids mask : tensor2) :
  Config.query_pad_tok (config self) = "mask"%string ->
  mask_token_id self <> pad_token_id self ->
  exists ids',
    pad_policy self (ids, mask) = (ids', mask) /\
    Forall (Forall (fun x => x <> pad_token_id self)) ids' /\
    (forall i j, entry ids' i j =
       option_map (fun x => if (x =? pad_token_id self)%Z then mask_token_id self else x)
         (entry ids i j)) /\
    (forall n w, shape ids n w -> shape ids' n w) /\
    (forall batch bsize fls out_ids out_mask,
       (Config.cap_padding (config self) <= 0)%Z ->
       marked self batch fls = Ok (ids, mask) ->
       tensorize self batch bsize None fls = Ok (Pair out_ids out_mask) ->
       out_ids = ids').
Proof.
  intros Hp Hne. exists (replace (pad_token_id self) (mask_token_id self) ids).
  split; [now rewrite pad_policy_mask_eq |].
  split; [now apply replace_no_more |].
  split; [intros i j; apply entry_map |].
  split; [intros n w; apply replace_shape |].
  intros batch bsize fls out_ids out_mask Hcap Hm Ht.
  apply tensorize_inv in Ht. destruct Ht as (st1 & st2 & st3 & Hq & Hs & Ha & Hf).
  apply query_side_inv in Hq. destruct Hq as (ids0 & mask0 & Hm' & Hc).
  rewrite Hm in Hm'. injection Hm' as <- <-.
  rewrite cap_off in Hc by assumption. injection Hc as <-.
  unfold splice in Hs. injection Hs as <-.
  apply attend_inv in Ha. destruct Ha as (Hids & _).
  symmetry in Hf. apply finish_Pair in Hf. subst st3.
  rewrite Hp in Hids. exact Hids.
Qed.

Lemma pad_policy_replaces_pad_witness :
  let self := Toy.qt 8 "mask" 0 false in
  let ids := [[101; 1; 1097; 1098; 102; 0; 0; 0]]%Z in
  let mask := [[1; 1; 1; 1; 1; 0; 0; 0]]%Z in
  Config.query_pad_tok (config self) = "mask"%string /\
  mask_token_id self <> pad_token_id self /\
  marked self (PyList ["ab"%string]) false = Ok (ids, mask) /\
  pad_policy self (ids, mask) = ([[101; 1; 1097; 1098; 102; 103; 103; 103]]%Z, mask) /\
  tensorize self (PyList ["ab"%string]) None None false =
    Ok (Pair [[101; 1; 1097; 1098; 102; 103; 103; 103]]%Z mask).
Proof.
  intros self ids mask.
  assert (Hp : Config.query_pad_tok (config self) = "mask"%string) by reflexivity.
  assert (Hne : mask_token_id self <> pad_token_id self) by (vm_compute; discriminate).
  destruct (@pad_policy_replaces_pad self ids mask Hp Hne) as (ids' & Heq & _).
  split; [exact Hp |]. split; [exact Hne |].
  split; [vm_compute; reflexivity |].
  split; [vm_compute; reflexivity | vm_compute; reflexivity].
Defined.

(** ** The adaptive cap *)

Lemma fold_left_max (rest : list Z) (x : Z) : is_max (fold_left Z.max rest x) (x :: rest).
Proof.
  revert x. induction rest as [| y rest IH]; intros x.
  - simpl. split; [now left | constructor; [lia | constructor]].
  - simpl. destruct (IH (Z.max x y)) as [Hin Hall]. split.
    + destruct Hin as [Heq | Hin]; [| right; right; exact Hin].
      rewrite <- Heq.
      destruct (Z.max_spec x y) as [[_ E] | [_ E]]; rewrite E.
      * right; left; reflexivity.
      * left; reflexivity.
    + inversion Hall as [| z zs Hz Hzs]; subst.
      constructor; [lia | constructor; [lia | exact Hzs]].
Qed.

Lemma py_max_Ok (xs : list Z) (m : Z) : py_max xs = Ok m -> is_max m xs.
Proof.
  destruct xs as [| x rest]; simpl; [discriminate |].
  intros H. injection H as <-. apply fold_left_max.
Qed.

Lemma py_max_nonempty (xs : list Z) : xs <> [] -> exists m, py_max xs = Ok m.
Proof.
  destruct xs as [| x rest]; [congruence |]. intros _. now eexists.
Qed.

Section Cap.

Variable self : QueryTokenizer.
Variable sizes : list Z.

Let k := Config.cap_padding (config self).

Lemma capped_length (w : nat) (v : Z) (i : nat) (row : list Z) :
  length (capped self sizes w v i row) = length row.
Proof.
  unfold capped. destruct (_ >? _)%Z; [apply fill_from_length | reflexivity].
Qed.

Lemma cap_row_step (ids mask : tensor2) (i : nat) :
  let st := cap_row self sizes (ids, mask) i in
  size1 (fst st) = size1 ids /\
  length (fst st) = length ids /\ length (snd st) = length mask /\
  (forall j, nth_error (fst st) j =
     if j =? i then option_map (capped self sizes (size1 ids) (pad_token_id self) i) (nth_error ids j)
     else nth_error ids j) /\
  (forall j, nth_error (snd st) j =
     if j =? i then option_map (capped self sizes (size1 ids) 0%Z i) (nth_error mask j)
     else nth_error mask j).
Proof.
  unfold cap_row, capped. fold k.
  destruct (Z.of_nat (size1 ids) >? nth i sizes 0%Z + k)%Z; simpl.
  - split; [apply update_row_size1; intros; apply fill_from_length |].
    split; [apply update_row_length |]. split; [apply update_row_length |].
    split; intros j; apply nth_error_update_row.
  - repeat split; intros j; destruct (j =? i); try reflexivity;
      now destruct (nth_error _ j).
Qed.

Lemma cap_rows_prefix (ids mask : tensor2) (m : nat) :
  let st := fold_left (cap_row self sizes) (seq 0 m) (ids, mask) in
  size1 (fst st) = size1 ids /\
  length (fst st) = length ids /\ length (snd st) = length mask /\
  (forall j, nth_error (fst st) j =
     if j <? m then option_map (capped self sizes (size1 ids) (pad_token_id self) j) (nth_error ids j)
     else nth_error ids j) /\
  (forall j, nth_error (snd st) j =
     if j <? m then option_map (capped self sizes (size1 ids) 0%Z j) (nth_error mask j)
     else nth_error mask j).
Proof.
  induction m as [| m IH].
  - simpl. repeat split.
  - rewrite seq_S, fold_left_app. simpl.
    destruct (fold_left (cap_row self sizes) (seq 0 m) (ids, mask)) as [ids_m mask_m].
    simpl in IH. destruct IH as (Hw & Hn & Hn' & Hids & Hmask).
    destruct (cap_row_step ids_m mask_m m) as (Sw & Sn & Sn' & Sids & Smask).
    split; [congruence |]. split; [congruence |]. split; [congruence |].
    split; intros j.
    + rewrite Sids, Hids, Hw.
      destruct (Nat.eqb_spec j m) as [-> | Hne].
      * rewrite Nat.ltb_irrefl.
        destruct (m <? S m) eqn:E; [reflexivity | apply Nat.ltb_ge in E; lia].
      * destruct (j <? m) eqn:E1; destruct (j <? S m) eqn:E2; try reflexivity;
          [apply Nat.ltb_lt in E1; apply Nat.ltb_ge in E2
          | apply Nat.ltb_ge in E1; apply Nat.ltb_lt in E2]; lia.
    + rewrite Smask, Hmask, Hw.
      destruct (Nat.eqb_spec j m) as [-> | Hne].
      * rewrite Nat.ltb_irrefl.
        destruct (m <? S m) eqn:E; [reflexivity | apply Nat.ltb_ge in E; lia].
      * destruct (j <? m) eqn:E1; destruct (j <? S m) eqn:E2; try reflexivity;
          [apply Nat.ltb_lt in E1; apply Nat.ltb_ge in E2
          | apply Nat.ltb_ge in E1; apply Nat.ltb_lt in E2]; lia.
Qed.

(** The whole loop: every row capped, nothing else changed. *)
Lemma cap_rows_spec (ids mask : tensor2) :
  length mask = length ids ->
  let st := cap_rows self sizes (ids, mask) in
  size1 (fst st) = size1 ids /\
  length (fst st) = length ids /\ length (snd st) = length mask /\
  (forall j, nth_error (fst st) j =
     option_map (capped self sizes (size1 ids) (pad_token_id self) j) (nth_error ids j)) /\
  (forall j, nth_error (snd st) j =
     option_map (capped self sizes (size1 ids) 0%Z j) (nth_error mask j)).
Proof.
  intros Hlen. unfold cap_rows, size0. simpl fst.
  destruct (cap_rows_prefix ids mask (length ids)) as (Hw & Hn & Hn' & Hids & Hmask).
  split; [exact Hw |]. split; [exact Hn |]. split; [exact Hn' |].
  split; intros j.
  - rewrite Hids. destruct (j <? length ids) eqn:E; [reflexivity |].
    apply Nat.ltb_ge in E.
    assert (H0 : nth_error ids j = None) by now apply nth_error_None.
    now rewrite H0.
  - rewrite Hmask. destruct (j <? length ids) eqn:E; [reflexivity |].
    apply Nat.ltb_ge in E.
    assert (H0 : nth_error mask j = None) by (apply nth_error_None; lia).
    now rewrite H0.
Qed.

End Cap.

Section CapResult.

Variable self : QueryTokenizer.
Variable sizes : list Z.

Let k := Config.cap_padding (config self).

Hypothesis sizes_nonneg : Forall (fun u => (0 <= u)%Z) sizes.
Hypothesis k_pos : (0 < k)%Z.

Lemma allowed_pos (i : nat) : (0 < nth i sizes 0%Z + k)%Z.
Proof.
  destruct (nth_in_or_default i sizes 0%Z) as [Hin | Hd].
  - rewrite Forall_forall in sizes_nonneg. specialize (sizes_nonneg _ Hin). lia.
  - rewrite Hd. lia.
Qed.

Lemma nth_error_capped (w : nat) (v : Z) (i j : nat) (row : list Z) :
  length row = w -> j < w ->
  nth_error (capped self sizes w v i row) j =
  if (nth i sizes 0%Z + k <=? Z.of_nat j)%Z then Some v else nth_error row j.
Proof.
  intros Hrow Hj. unfold capped. fold k. pose proof (allowed_pos i) as Hpos.
  destruct (Z.of_nat w >? nth i sizes 0%Z + k)%Z eqn:E.
  - apply nth_error_fill_from; lia.
  - destruct (nth i sizes 0%Z + k <=? Z.of_nat j)%Z eqn:E2; [| reflexivity].
    apply Z.leb_le in E2.
    assert (Hle : (Z.of_nat w <= nth i sizes 0%Z + k)%Z).
    { destruct (Z.gtb_spec (Z.of_nat w) (nth i sizes 0%Z + k)); [discriminate | lia]. }
    lia.
Qed.

(** A tensor whose rows were capped by the loop, then sliced to width [W]. *)
Lemma capped_then_trimmed (t t1 : tensor2) (n w : nat) (v W : Z) :
  shape t n w ->
  length t1 = length t ->
  (forall i, nth_error t1 i = option_map (capped self sizes w v i) (nth_error t i)) ->
  (0 <= W <= Z.of_nat w)%Z ->
  shape (map (take_cols W) t1) n (Z.to_nat W) /\
  (forall i j, i < n -> j < Z.to_nat W ->
     entry (map (take_cols W) t1) i j =
     if (nth i sizes 0%Z + k <=? Z.of_nat j)%Z then Some v else entry t i j).
Proof.
  intros Hs Hlen Hrows HW. split.
  - split; [rewrite length_map; destruct Hs; congruence |].
    apply Forall_map, Forall_forall. intros row1 Hin.
    apply In_nth_error in Hin. destruct Hin as [i Hi].
    rewrite Hrows in Hi. destruct (nth_error t i) as [row |] eqn:Hrow; [| discriminate].
    simpl in Hi. injection Hi as <-.
    rewrite take_cols_length by lia. rewrite capped_length.
    rewrite (shape_row i Hs Hrow). lia.
  - intros i j Hi Hj. unfold entry. rewrite nth_error_map, Hrows.
    destruct (nth_error t i) as [row |] eqn:Hrow.
    + simpl. rewrite nth_error_take_cols by lia.
      apply nth_error_capped; [exact (shape_row i Hs Hrow) | lia].
    + apply nth_error_None in Hrow. destruct Hs as [Hn _]. lia.
Qed.

Lemma capped_then_trimmed_bits (t t1 : tensor2) (w : nat) (W : Z) :
  (forall i, nth_error t1 i = option_map (capped self sizes w 0%Z i) (nth_error t i)) ->
  bits t -> bits (map (take_cols W) t1).
Proof.
  intros Hrows Hb. apply Forall_map, Forall_forall. intros row1 Hin.
  apply In_nth_error in Hin. destruct Hin as [i Hi].
  rewrite Hrows in Hi. destruct (nth_error t i) as [row |] eqn:Hrow; [| discriminate].
  simpl in Hi. injection Hi as <-.
  apply nth_error_In in Hrow. unfold bits in Hb. rewrite Forall_forall in Hb.
  specialize (Hb _ Hrow).
  assert (Hc : Forall (fun b => b = 0%Z \/ b = 1%Z) (capped self sizes w 0%Z i row)).
  { unfold capped. destruct (_ >? _)%Z; [| exact Hb].
    unfold fill_from. apply Forall_app. split.
    - now apply Forall_take.
    - apply Forall_forall. intros b Hin. apply repeat_spec in Hin. now left. }
  unfold take_cols. now apply Forall_take.
Qed.

(** Lines 89-101 on a batch of [n >= 1] rows of width [w]. *)
Lemma cap_spec (ids mask : tensor2) (n w : nat) :
  shape ids n w -> shape mask n w -> sizes <> [] -> n <> 0 ->
  exists M ids' mask',
    is_max M (map (fun u => (u + k)%Z) sizes) /\
    cap self sizes (ids, mask) = Ok (ids', mask') /\
    let W := Z.to_nat (Z.min M (Z.of_nat w)) in
    shape ids' n W /\ shape mask' n W /\
    (forall i j, i < n -> j < W ->
       entry ids' i j =
       if (nth i sizes 0%Z + k <=? Z.of_nat j)%Z then Some (pad_token_id self)
       else entry ids i j) /\
    (forall i j, i < n -> j < W ->
       entry mask' i j =
       if (nth i sizes 0%Z + k <=? Z.of_nat j)%Z then Some 0%Z else entry mask i j) /\
    (bits mask -> bits mask').
Proof.
  intros Hids Hmask Hne Hn.
  destruct (@py_max_nonempty (map (fun u => (u + k)%Z) sizes)) as [M HM].
  { destruct sizes; [congruence | discriminate]. }
  pose proof (py_max_Ok _ HM) as Hmax.
  assert (HMpos : (0 < M)%Z).
  { destruct Hmax as [Hin _]. apply in_map_iff in Hin. destruct Hin as (u & <- & Hu).
    rewrite Forall_forall in sizes_nonneg. specialize (sizes_nonneg _ Hu). lia. }
  assert (Hlen : length mask = length ids) by (destruct Hids, Hmask; congruence).
  destruct (@cap_rows_spec self sizes ids mask Hlen) as (Hw1 & Hn1 & Hn1' & Hrows & Hrows').
  rewrite (shape_size1 Hids Hn) in Hw1, Hrows, Hrows'.
  assert (HW : (0 <= Z.min M (Z.of_nat w) <= Z.of_nat w)%Z) by lia.
  destruct (@capped_then_trimmed ids (fst (cap_rows self sizes (ids, mask))) n w
              (pad_token_id self) _ Hids Hn1 Hrows HW) as [Sids Eids].
  destruct (@capped_then_trimmed mask (snd (cap_rows self sizes (ids, mask))) n w
              0%Z _ Hmask Hn1' Hrows' HW) as [Smask Emask].
  exists M, (map (take_cols (Z.min M (Z.of_nat w))) (fst (cap_rows self sizes (ids, mask)))),
    (map (take_cols (Z.min M (Z.of_nat w))) (snd (cap_rows self sizes (ids, mask)))).
  split; [exact Hmax |]. split.
  - unfold cap. fold k.
    destruct (k >? 0)%Z eqn:E; [| destruct (Z.gtb_spec k 0); [discriminate | lia]].
    destruct (cap_rows self sizes (ids, mask)) as [ids1 mask1]. simpl in *.
    unfold trim_width. fold k. rewrite HM. simpl. rewrite Hw1. reflexivity.
  - cbv zeta. split; [exact Sids |]. split; [exact Smask |].
    split; [exact Eids |]. split; [exact Emask |].
    intros Hb. eapply capped_then_trimmed_bits; [exact Hrows' | exact Hb].
Qed.

End CapResult.

(** ** The tensors before the cap *)

Lemma target_length_Ok (self : QueryTokenizer) (batch_text : list string) (fls : bool) (t : Z) :
  target_length self batch_text fls = Ok t ->
  (fls = false -> t = query_maxlen self) /\
  (fls = true -> exists len, t = max_len self len).
Proof.
  unfold target_length. destruct fls.
  - intros H. apply bind_Ok in H. destruct H as (len & _ & H). injection H as <-.
    split; [discriminate | intros _; now exists len].
  - intros H. injection H as <-. split; [reflexivity | discriminate].
Qed.

Lemma marked_inv (self : QueryTokenizer) (batch : pyseq) (fls : bool) (ids mask : tensor2) :
  marked self batch fls = Ok (ids, mask) ->
  is_list_or_tuple batch = true /\
  (fls = true -> length (items batch) = 1) /\
  exists target,
    let batch_text := map (String.append ". ") (items batch) in
    target_length self batch_text fls = Ok target /\
    2 <= size1 (fst (Tok.call_max_length (tok self) batch_text target)) /\
    ids = map (set_nth 1 (Q_marker_token_id self))
            (fst (Tok.call_max_length (tok self) batch_text target)) /\
    mask = snd (Tok.call_max_length (tok self) batch_text target).
Proof.
  unfold marked. intros H.
  apply bind_Ok in H. destruct H as (u1 & Hty & H). apply assert_Ok in Hty.
  apply bind_Ok in H. destruct H as (u2 & Hfls & H). apply assert_Ok in Hfls.
  apply bind_Ok in H. destruct H as (target & Ht & H).
  split; [exact Hty |]. split.
  - intros ->. simpl in Hfls. rewrite length_map in Hfls. now apply Nat.eqb_eq.
  - exists target. cbv zeta. split; [exact Ht |].
    destruct (Tok.call_max_length (tok self) _ target) as [ids0 mask0].
    apply bind_Ok in H. destruct H as (ids1 & Hset & H). injection H as <- <-.
    apply set_column1_Ok in Hset. destruct Hset as [Hw ->]. simpl. auto.
Qed.

Lemma nth_error_set_nth_1 (v : Z) (row : list Z) :
  2 <= length row -> nth_error (set_nth 1 v row) 1 = Some v.
Proof.
  intros H. rewrite nth_error_set_nth. simpl.
  destruct (1 <? length row) eqn:E; [reflexivity | apply Nat.ltb_ge in E; lia].
Qed.

(** Under the tokenizer contract, what [marked] returns: two tensors of one
    shape with at least one row and two columns, the marker in column 1 and
    bits in the mask. *)
Lemma marked_shape (self : QueryTokenizer) (batch : pyseq) (fls : bool) (ids mask : tensor2) :
  TokContract (tok self) ->
  marked self batch fls = Ok (ids, mask) ->
  exists w target,
    length (items batch) <> 0 /\ 2 <= w /\
    shape ids (length (items batch)) w /\ shape mask (length (items batch)) w /\
    bits mask /\
    Forall (fun row => nth_error row 1 = Some (Q_marker_token_id self)) ids /\
    target_length self (map (String.append ". ") (items batch)) fls = Ok target /\
    ((2 <= target)%Z -> w = Z.to_nat target).
Proof.
  intros Hc Hm. apply marked_inv in Hm.
  destruct Hm as (_ & _ & target & Ht & Hw & -> & ->).
  set (batch_text := map (String.append ". ") (items batch)) in *.
  destruct (max_length_shape Hc batch_text target) as (w & Hids & Hmask & Hwt).
  assert (Hlen : length batch_text = length (items batch)) by apply length_map.
  rewrite Hlen in Hids, Hmask.
  assert (Hn : length (items batch) <> 0).
  { intros H0. destruct Hids as [Hl _]. rewrite H0 in Hl.
    apply length_zero_iff_nil in Hl. rewrite Hl in Hw. simpl in Hw. lia. }
  rewrite (shape_size1 Hids Hn) in Hw.
  exists w, target. split; [exact Hn |]. split; [exact Hw |].
  split; [apply shape_map with (w := w); [intros; now rewrite set_nth_length | exact Hids] |].
  split; [exact Hmask |]. split; [apply (max_length_bits Hc) |].
  split; [| split; [exact Ht | exact Hwt]].
  apply Forall_map. destruct Hids as [_ Hrows].
  eapply Forall_impl; [| exact Hrows]. intros row Hrow. simpl in Hrow.
  apply nth_error_set_nth_1. lia.
Qed.

Lemma unpadded_sizes_spec (self : QueryTokenizer) (ids : tensor2) :
  length (unpadded_sizes self ids) = length ids /\
  Forall (fun u => (0 <= u)%Z) (unpadded_sizes self ids) /\
  (forall i, i < length ids ->
     nth i (unpadded_sizes self ids) 0%Z =
     count_ne (pad_token_id self) (nth i ids [])).
Proof.
  unfold unpadded_sizes, sizes_ne. split; [apply length_map |]. split.
  - apply Forall_map, Forall_forall. intros row _. unfold count_ne. lia.
  - intros i Hi.
    change 0%Z with (count_ne (pad_token_id self) []). apply map_nth.
Qed.

Lemma attend_off (self : QueryTokenizer) (st : tensor2 * tensor2) :
  Config.attend_to_mask_tokens (config self) = false -> attend self st = Ok st.
Proof. intros H. destruct st as [ids mask]. unfold attend. now rewrite H. Qed.

Lemma tensorize_plain (self : QueryTokenizer) (batch : pyseq) (fls : bool) (ids mask : tensor2) :
  Config.attend_to_mask_tokens (config self) = false ->
  query_side self batch fls = Ok (ids, mask) ->
  tensorize self batch None None fls = Ok (Pair ids mask).
Proof.
  intros Hatt Hq. unfold tensorize, splice. rewrite Hq. cbn [bind].
  rewrite attend_off by assumption. reflexivity.
Qed.

Lemma query_side_capped (self : QueryTokenizer) (batch : pyseq) (fls : bool)
  (ids0 mask0 : tensor2) :
  let k := Config.cap_padding (config self) in
  let n := length (items batch) in
  let size i := count_ne (pad_token_id self) (nth i ids0 []) in
  TokContract (tok self) ->
  (0 < k)%Z ->
  marked self batch fls = Ok (ids0, mask0) ->
  exists w M ids mask,
    shape ids0 n w /\ shape mask0 n w /\
    (exists i, i < n /\ M = (size i + k)%Z) /\ (forall i, i < n -> (size i + k <= M)%Z) /\
    query_side self batch fls = Ok (ids, mask) /\
    let W := Z.to_nat (Z.min (Z.of_nat w) M) in
    shape ids n W /\ shape mask n W /\
    (forall i j, i < n -> j < W ->
       entry ids i j =
       if (size i + k <=? Z.of_nat j)%Z then Some (pad_token_id self)
       else entry (fst (pad_policy self (ids0, mask0))) i j) /\
    (forall i j, i < n -> j < W ->
       entry mask i j =
       if (size i + k <=? Z.of_nat j)%Z then Some 0%Z else entry mask0 i j) /\
    (Config.attend_to_mask_tokens (config self) = false ->
     tensorize self batch None None fls = Ok (Pair ids mask)) /\
    (bits mask0 -> bits mask).
Proof.
  intros k n size Hc Hk Hm.
  destruct (@marked_shape self batch fls ids0 mask0 Hc Hm)
    as (w & target & Hn & Hw & Hids & Hmask & _).
  fold n in Hn, Hids, Hmask.
  destruct (unpadded_sizes_spec self ids0) as (Hlen & Hnonneg & Hnth).
  assert (Hl0 : length ids0 = n) by (now destruct Hids).
  assert (Hne : unpadded_sizes self ids0 <> []).
  { intros E. rewrite E in Hlen. simpl in Hlen. lia. }
  pose proof (@pad_policy_shape self (ids0, mask0) n w Hids) as Hids1.
  pose proof (pad_policy_snd self (ids0, mask0)) as Hsnd.
  destruct (pad_policy self (ids0, mask0)) as [ids1 mask1] eqn:Hpp.
  simpl in Hids1, Hsnd. subst mask1.
  destruct (@cap_spec self (unpadded_sizes self ids0) Hnonneg Hk ids1 mask0 n w
              Hids1 Hmask Hne Hn)
    as (M & ids & mask & Hmax & Hcap & Hsh & Hsh' & Eids & Emask & Hbits).
  exists w, M, ids, mask.
  split; [exact Hids |]. split; [exact Hmask |].
  destruct Hmax as [Hin Hall].
  split.
  { apply in_map_iff in Hin. destruct Hin as (u & <- & Hu).
    apply In_nth with (d := 0%Z) in Hu. destruct Hu as (i & Hi & <-).
    exists i. split; [lia |]. unfold size. rewrite Hnth by lia. reflexivity. }
  split.
  { intros i Hi. rewrite Forall_forall in Hall. unfold size.
    rewrite <- Hnth by lia. apply Hall. apply in_map_iff.
    eexists; split; [reflexivity | apply nth_In; lia]. }
  assert (Hq : query_side self batch fls = Ok (ids, mask)).
  { unfold query_side. rewrite Hm. cbn [bind]. rewrite Hpp. exact Hcap. }
  split; [exact Hq |].
  rewrite Z.min_comm. cbv zeta in *.
  split; [exact Hsh |]. split; [exact Hsh' |].
  split; [| split; [| split]].
  - intros i j Hi Hj. rewrite (Eids i j Hi Hj). fold k. unfold size.
    rewrite Hnth by lia. reflexivity.
  - intros i j Hi Hj. rewrite (Emask i j Hi Hj). fold k. unfold size.
    rewrite Hnth by lia. reflexivity.
  - intros Hatt. now apply tensorize_plain.
  - exact Hbits.
Qed.


(** C2: with [cap_padding = k > 0], [tensorize] caps each row and then trims
    the batch: for every row [i], every position at index
    [unpadded_sizes[i] + k] or beyond holds the pad id with attention 0, every
    earlier position is as the pad policy left it, and [ids] and [mask] are
    both sliced to the one width [min(w, max_i (unpadded_sizes[i] + k))],
    where [w] is the width before the cap and [unpadded_sizes[i]] counts the
    non-pad ids of row [i] before the pad-policy replacement. *)
Theorem cap_two_phase (self : QueryTokenizer) (batch : pyseq) (fls : bool)
  (ids0 mask0 : tensor2) :
  let k := Config.cap_padding (config self) in
  let n := length (items batch) in
  let size i := count_ne (pad_token_id self) (nth i ids0 []) in
  TokContract (tok self) ->
  (0 < k)%Z ->
  marked self batch fls = Ok (ids0, mask0) ->
  exists w M ids mask,
    shape ids0 n w /\ shape mask0 n w /\
    (exists i, i < n /\ M = (size i + k)%Z) /\ (forall i, i < n -> (size i + k <= M)%Z) /\
    query_side self batch fls = Ok (ids, mask) /\
    let W := Z.to_nat (Z.min (Z.of_nat w) M) in
    shape ids n W /\ shape mask n W /\
    (forall i j, i < n -> j < W ->
       entry ids i j =
       if (size i + k <=? Z.of_nat j)%Z then Some (pad_token_id self)
       else entry (fst (pad_policy self (ids0, mask0))) i j) /\
    (forall i j, i < n -> j < W ->
       entry mask i j =
       if (size i + k <=? Z.of_nat j)%Z then Some 0%Z else entry mask0 i j) /\
    (Config.attend_to_mask_tokens (config self) = false ->
     tensorize self batch None None fls = Ok (Pair ids mask)).
Proof.
  intros k n size Hc Hk Hm.
  destruct (@query_side_capped self batch fls ids0 mask0 Hc Hk Hm)
    as (w & M & ids & mask & H1 & H2 & H3 & H4 & H5 & H6 & H7 & H8 & H9 & H10 & _).
  exists w, M, ids, mask. repeat (split; [assumption |]). assumption.
Qed.

Lemma cap_two_phase_witness :
  let self := Toy.qt 8 "mask" 2 false in
  let batch := PyList ["ab"; "abcd"]%string in
  let ids0 := [[101; 1; 1097; 1098; 102; 0; 0; 0];
               [101; 1; 1097; 1098; 1099; 1100; 102; 0]]%Z in
  let mask0 := [[1; 1; 1; 1; 1; 0; 0; 0]; [1; 1; 1; 1; 1; 1; 1; 0]]%Z in
  TokContract (tok self) /\
  (0 < Config.cap_padding (config self))%Z /\
  marked self batch false = Ok (ids0, mask0) /\
  exists w M ids mask,
    shape ids0 2 w /\
    query_side self batch false = Ok (ids, mask) /\
    shape ids 2 (Z.to_nat (Z.min (Z.of_nat w) M)) /\
    shape mask 2 (Z.to_nat (Z.min (Z.of_nat w) M)).
Proof.
  intros self batch ids0 mask0.
  assert (Hc : TokContract (tok self)) by exact ToyFacts.contract.
  assert (Hk : (0 < Config.cap_padding (config self))%Z) by (vm_compute; reflexivity).
  assert (Hm : marked self batch false = Ok (ids0, mask0)) by (vm_compute; reflexivity).
  split; [exact Hc |]. split; [exact Hk |]. split; [exact Hm |].
  destruct (@cap_two_phase self batch false ids0 mask0 Hc Hk Hm)
    as (w & M & ids & mask & H0 & _ & _ & _ & Hq & Hs & Hs' & _).
  exists w, M, ids, mask. auto.
Defined.

(** The capped tensors of the example above, computed. *)
Example capped_batch_example :
  tensorize (Toy.qt 8 "mask" 2 false) (PyList ["ab"; "abcd"]%string) None None false =
  Ok (Pair [[101; 1; 1097; 1098; 102; 103; 103; 0];
            [101; 1; 1097; 1098; 1099; 1100; 102; 103]]%Z
           [[1; 1; 1; 1; 1; 0; 0; 0]; [1; 1; 1; 1; 1; 1; 1; 0]]%Z).
Proof. vm_compute. reflexivity. Qed.

(** ** Shapes along the rest of the pipeline *)

Lemma query_side_shape (self : QueryTokenizer) (batch : pyseq) (fls : bool)
  (ids mask : tensor2) :
  TokContract (tok self) ->
  query_side self batch fls = Ok (ids, mask) ->
  exists L,
    length (items batch) <> 0 /\
    shape ids (length (items batch)) L /\ shape mask (length (items batch)) L /\
    bits mask.
Proof.
  intros Hc Hq. pose proof Hq as Hq'. apply query_side_inv in Hq'.
  destruct Hq' as (ids0 & mask0 & Hm & Hcap).
  destruct (@marked_shape self batch fls ids0 mask0 Hc Hm)
    as (w & target & Hn & Hw & Hids & Hmask & Hbits & _).
  destruct (Z.lt_ge_cases 0 (Config.cap_padding (config self))) as [Hk | Hk].
  - destruct (@query_side_capped self batch fls ids0 mask0 Hc Hk Hm)
      as (w' & M & ids' & mask' & _ & _ & _ & _ & Hq2 & Hs & Hs' & _ & _ & _ & Hb).
    rewrite Hq in Hq2. injection Hq2 as <- <-.
    eexists. split; [exact Hn |]. split; [exact Hs |]. split; [exact Hs' | now apply Hb].
  - rewrite cap_off in Hcap by assumption.
    assert (Hpp : pad_policy self (ids0, mask0) = (ids, mask)) by congruence.
    exists w. split; [exact Hn |].
    pose proof (@pad_policy_shape self (ids0, mask0) _ _ Hids) as H1.
    pose proof (pad_policy_snd self (ids0, mask0)) as H2.
    rewrite Hpp in H1, H2. simpl in H1, H2. subst mask0. auto.
Qed.

Lemma map2_app_shape (a b : tensor2) (n w1 w2 : nat) :
  shape a n w1 -> shape b n w2 -> shape (map2 (@app Z) a b) n (w1 + w2).
Proof.
  revert b n. induction a as [| ra a IH]; intros b n [Hn Ha] [Hn' Hb].
  - simpl in *. subst n. split; [reflexivity | constructor].
  - destruct b as [| rb b]; [simpl in *; congruence |].
    inversion Ha as [| ? ? Hra Ha']; subst. inversion Hb as [| ? ? Hrb Hb']; subst.
    simpl in Hn'. injection Hn' as Hn'.
    destruct (IH b (length a)) as [Hl Hrows]; [now split | now split |].
    split; [simpl; now rewrite Hl |].
    simpl. constructor; [now rewrite length_app | exact Hrows].
Qed.

Lemma map2_app_bits (a b : tensor2) : bits a -> bits b -> bits (map2 (@app Z) a b).
Proof.
  revert b. induction a as [| ra a IH]; intros b Ha Hb; [constructor |].
  destruct b as [| rb b]; [constructor |].
  inversion Ha; subst. inversion Hb; subst. simpl. constructor.
  - now apply Forall_app.
  - now apply IH.
Qed.

Lemma drop_first_shape (t : tensor2) (n w : nat) :
  shape t n w -> shape (map (skipn 1) t) n (w - 1).
Proof.
  apply shape_map. intros row Hrow. rewrite length_skipn. lia.
Qed.

Lemma drop_first_bits (t : tensor2) : bits t -> bits (map (skipn 1) t).
Proof.
  intros H. apply Forall_map. eapply Forall_impl; [| exact H].
  intros row. apply Forall_drop.
Qed.

Lemma cat_same_rows (a b : tensor2) (n w1 w2 : nat) :
  shape a n w1 -> shape b n w2 -> cat a b = Ok (map2 (@app Z) a b).
Proof.
  intros [Ha _] [Hb _]. unfold cat. rewrite Ha, Hb, Nat.eqb_refl. reflexivity.
Qed.

(** Lines 105-114 on tensors of one shape. *)
Lemma splice_spec (self : QueryTokenizer) (batch : pyseq) (context : list string)
  (ids mask : tensor2) (L : nat) :
  let n := length (items batch) in
  let ids_o := fst (Tok.call_longest (tok self) context (background_maxlen self)) in
  let mask_o := snd (Tok.call_longest (tok self) context (background_maxlen self)) in
  TokContract (tok self) ->
  shape ids n L -> shape mask n L ->
  (length context <> n ->
   splice self batch (Some context) (ids, mask) = Raise (AssertionError InvalidArgument)) /\
  (length context = n ->
   exists cw, 1 <= cw /\ shape ids_o n cw /\ shape mask_o n cw /\
     splice self batch (Some context) (ids, mask) =
       Ok (map2 (@app Z) ids (map (skipn 1) ids_o),
           map2 (@app Z) mask (map (skipn 1) mask_o)) /\
     shape (map2 (@app Z) ids (map (skipn 1) ids_o)) n (L + cw - 1) /\
     shape (map2 (@app Z) mask (map (skipn 1) mask_o)) n (L + cw - 1) /\
     (bits mask -> bits (map2 (@app Z) mask (map (skipn 1) mask_o)))).
Proof.
  intros n ids_o mask_o Hc Hids Hmask. split.
  - intros Hlen. unfold splice. fold n.
    destruct (length context =? n) eqn:E; [apply Nat.eqb_eq in E; contradiction |].
    reflexivity.
  - intros Hlen.
    destruct (longest_shape Hc context (background_maxlen self)) as (cw & Hcw & Ho & Ho').
    fold ids_o in Ho. fold mask_o in Ho'. rewrite Hlen in Ho, Ho'.
    pose proof (drop_first_shape Ho) as Hd. pose proof (drop_first_shape Ho') as Hd'.
    exists cw. split; [exact Hcw |]. split; [exact Ho |]. split; [exact Ho' |].
    split.
    + unfold splice. fold n. rewrite Hlen, Nat.eqb_refl. cbn [assert bind].
      subst ids_o mask_o.
      destruct (Tok.call_longest (tok self) context (background_maxlen self))
        as [io mo]. cbn [fst snd] in *.
      rewrite (cat_same_rows Hids Hd). cbn [bind].
      rewrite (cat_same_rows Hmask Hd'). reflexivity.
    + replace (L + cw - 1) with (L + (cw - 1)) by lia.
      split; [now apply map2_app_shape |]. split; [now apply map2_app_shape |].
      intros Hb. apply map2_app_bits; [exact Hb |].
      apply drop_first_bits. apply (longest_bits Hc).
Qed.

Lemma splice_shape (self : QueryTokenizer) (batch : pyseq) (context : option (list string))
  (st st' : tensor2 * tensor2) (L : nat) :
  TokContract (tok self) ->
  shape (fst st) (length (items batch)) L -> shape (snd st) (length (items batch)) L ->
  bits (snd st) ->
  splice self batch context st = Ok st' ->
  exists L', L <= L' /\
    shape (fst st') (length (items batch)) L' /\
    shape (snd st') (length (items batch)) L' /\ bits (snd st').
Proof.
  intros Hc Hids Hmask Hb Hs. destruct st as [ids mask]. cbn [fst snd] in *.
  destruct context as [context |].
  - destruct (@splice_spec self batch context ids mask L Hc Hids Hmask) as [Hbad Hgood].
    destruct (Nat.eq_dec (length context) (length (items batch))) as [E | E].
    + destruct (Hgood E) as (cw & Hcw & _ & _ & Heq & S1 & S2 & B).
      rewrite Heq in Hs. injection Hs as <-. cbn [fst snd].
      exists (L + cw - 1). split; [lia |]. auto.
    + rewrite (Hbad E) in Hs. discriminate.
  - simpl in Hs. injection Hs as <-. exists L. cbn [fst snd]. auto.
Qed.

(** ** Attention on the mask tokens *)

Lemma map2_length {A B C : Type} (f : A -> B -> C) (xs : list A) (ys : list B) :
  length xs = length ys -> length (map2 f xs ys) = length xs.
Proof.
  revert ys. induction xs as [| x xs IH]; intros [| y ys] H; simpl in *; try congruence.
  f_equal. apply IH. congruence.
Qed.

Lemma nth_error_map2 {A B C : Type} (f : A -> B -> C) (xs : list A) (ys : list B)
  (i : nat) (x : A) (y : B) :
  nth_error xs i = Some x -> nth_error ys i = Some y ->
  nth_error (map2 f xs ys) i = Some (f x y).
Proof.
  revert ys i. induction xs as [| x0 xs IH]; intros ys i Hx Hy.
  - destruct i; discriminate.
  - destruct ys as [| y0 ys]; [destruct i; discriminate |].
    destruct i as [| i]; simpl in *.
    + now injection Hx as ->; injection Hy as ->.
    + now apply IH.
Qed.

Lemma map2_Forall {A B C : Type} (P : C -> Prop) (f : A -> B -> C)
  (xs : list A) (ys : list B) :
  (forall x y, In x xs -> In y ys -> P (f x y)) -> Forall P (map2 f xs ys).
Proof.
  revert ys. induction xs as [| x xs IH]; intros ys H; [constructor |].
  destruct ys as [| y ys]; [constructor |]. simpl. constructor.
  - apply H; now left.
  - apply IH. intros x' y' Hx Hy. apply H; now right.
Qed.

Lemma masked_set_shape (a b : Z) (ids mask : tensor2) (n w : nat) :
  shape ids n w -> shape mask n w -> shape (masked_set a b ids mask) n w.
Proof.
  intros [Hn Hi] [Hn' Hm]. unfold masked_set. split.
  - rewrite map2_length; congruence.
  - apply map2_Forall. intros ri rm Hri Hrm. rewrite Forall_forall in Hi, Hm.
    rewrite map2_length; [now apply Hi |]. rewrite (Hi _ Hri), (Hm _ Hrm). reflexivity.
Qed.

Lemma masked_set_bits (a : Z) (ids mask : tensor2) :
  bits mask -> bits (masked_set a 1%Z ids mask).
Proof.
  intros Hb. unfold masked_set. apply map2_Forall. intros ri rm _ Hrm.
  unfold bits in Hb. rewrite Forall_forall in Hb. specialize (Hb _ Hrm).
  apply map2_Forall. intros x m _ Hm. rewrite Forall_forall in Hb.
  destruct (x =? a)%Z; [now right | now apply Hb].
Qed.

Lemma masked_set_entry (a b : Z) (ids mask : tensor2) (n w i j : nat) (x : Z) :
  shape ids n w -> shape mask n w ->
  entry ids i j = Some x ->
  exists m, entry mask i j = Some m /\
    entry (masked_set a b ids mask) i j = Some (if (x =? a)%Z then b else m).
Proof.
  intros Hi Hm He. unfold entry in *.
  destruct (nth_error ids i) as [ri |] eqn:Hri; [| discriminate].
  assert (Hlt : i < length mask).
  { destruct Hi as [Hn _], Hm as [Hn' _]. rewrite Hn', <- Hn.
    apply nth_error_Some. congruence. }
  destruct (nth_error mask i) as [rm |] eqn:Hrm;
    [| apply nth_error_None in Hrm; lia].
  assert (Hj : j < length rm).
  { rewrite (shape_row i Hm Hrm), <- (shape_row i Hi Hri).
    apply nth_error_Some. congruence. }
  destruct (nth_error rm j) as [m |] eqn:Hmj; [| apply nth_error_None in Hmj; lia].
  exists m. split; [reflexivity |].
  unfold masked_set. rewrite (nth_error_map2 _ _ _ _ Hri Hrm).
  apply (@nth_error_map2 _ _ _ (fun x m => if (x =? a)%Z then b else m) ri rm j x m He Hmj).
Qed.

Lemma sum_row_bits (row : list Z) :
  Forall (fun b => b = 0%Z \/ b = 1%Z) row ->
  (sum_row row <= Z.of_nat (length row))%Z /\
  (sum_row row = Z.of_nat (length row) <-> Forall (eq 1%Z) row).
Proof.
  induction 1 as [| b row Hb Hrow [IHle IHeq]].
  - simpl. split; [lia | split; [constructor | reflexivity]].
  - change (sum_row (b :: row)) with (b + sum_row row)%Z.
    rewrite length_cons, Nat2Z.inj_succ. split; [lia |]. split.
    + intros Hs. constructor; [lia | apply IHeq; lia].
    + intros Hall. inversion Hall as [| ? ? H1 Hr]; subst.
      apply IHeq in Hr. lia.
Qed.

Lemma sum_bits (t : tensor2) (n w : nat) :
  shape t n w -> bits t ->
  (sum t <= Z.of_nat n * Z.of_nat w)%Z /\
  (sum t = (Z.of_nat n * Z.of_nat w)%Z <-> Forall (Forall (eq 1%Z)) t).
Proof.
  revert n. induction t as [| row t IH]; intros n [Hn Hw] Hb.
  - simpl in *. subst n. simpl. split; [lia | split; [constructor | reflexivity]].
  - inversion Hw as [| ? ? Hrow Hw']; subst. inversion Hb as [| ? ? Hbrow Hb']; subst.
    destruct (IH (length t) (conj eq_refl Hw') Hb') as [IHle IHeq].
    destruct (sum_row_bits Hbrow) as [Rle Req].
    change (sum (row :: t)) with (sum_row row + sum t)%Z.
    rewrite length_cons, Nat2Z.inj_succ. split; [nia |]. split.
    + intros Hs. constructor; [apply Req; nia | apply IHeq; nia].
    + intros Hall. inversion Hall as [| ? ? H1 Hr]; subst.
      apply Req in H1. apply IHeq in Hr. nia.
Qed.

(** Lines 116-118 on tensors of one shape with bits in the mask: the assert
    passes exactly when the forced mask is all ones. *)
Lemma attend_spec (self : QueryTokenizer) (ids mask : tensor2) (n w : nat) :
  let mask' := masked_set (mask_token_id self) 1%Z ids mask in
  Config.attend_to_mask_tokens (config self) = true ->
  n <> 0 -> shape ids n w -> shape mask n w -> bits mask ->
  shape mask' n w /\
  (forall i j, entry ids i j = Some (mask_token_id self) -> entry mask' i j = Some 1%Z) /\
  ((attend self (ids, mask) = Ok (ids, mask') /\
    Forall (Forall (eq 1%Z)) mask' /\
    sum mask' = (Z.of_nat (size0 mask') * Z.of_nat (size1 mask'))%Z) \/
   (attend self (ids, mask) = Raise (AssertionError InvariantViolation) /\
    ~ Forall (Forall (eq 1%Z)) mask')).
Proof.
  intros mask' Hatt Hn Hids Hmask Hb.
  pose proof (masked_set_shape (mask_token_id self) 1%Z Hids Hmask) as Hs'.
  pose proof (masked_set_bits (mask_token_id self) ids Hb) as Hb'.
  fold mask' in Hs', Hb'.
  destruct (sum_bits Hs' Hb') as [_ Heq].
  split; [exact Hs' |]. split.
  - intros i j He.
    destruct (@masked_set_entry (mask_token_id self) 1%Z ids mask n w i j _ Hids Hmask He)
      as (m & _ & Hm). fold mask' in Hm. now rewrite Z.eqb_refl in Hm.
  - unfold attend. rewrite Hatt. fold mask'.
    rewrite (shape_size0 Hs'), (shape_size1 Hs' Hn).
    destruct (sum mask' =? Z.of_nat n * Z.of_nat w)%Z eqn:E.
    + left. apply Z.eqb_eq in E. split; [reflexivity |]. split; [now apply Heq | exact E].
    + right. apply Z.eqb_neq in E. split; [reflexivity |].
      intros Hall. apply E. now apply Heq.
Qed.

(** C4: with [attend_to_mask_tokens] set, [tensorize] forces the attention to
    1 wherever the token id is the mask id; then the mask is all ones (its sum
    is rows times width) and is returned, or the call fails with
    InvariantViolation.  A mask that [tensorize] returns under this setting is
    all ones. *)
Theorem attend_to_mask_tokens_dense (self : QueryTokenizer) (batch : pyseq)
  (bsize : option Z) (context : option (list string)) (fls : bool) :
  TokContract (tok self) ->
  Config.attend_to_mask_tokens (config self) = true ->
  (forall st1 ids mask,
     query_side self batch fls = Ok st1 ->
     splice self batch context st1 = Ok (ids, mask) ->
     let mask' := masked_set (mask_token_id self) 1%Z ids mask in
     (forall i j, entry ids i j = Some (mask_token_id self) -> entry mask' i j = Some 1%Z) /\
     ((tensorize self batch bsize context fls = Ok (finish bsize (ids, mask')) /\
       Forall (Forall (eq 1%Z)) mask' /\
       sum mask' = (Z.of_nat (size0 mask') * Z.of_nat (size1 mask'))%Z) \/
      (tensorize self batch bsize context fls = Raise (AssertionError InvariantViolation) /\
       ~ Forall (Forall (eq 1%Z)) mask'))) /\
  (forall ids mask,
     tensorize self batch bsize context fls = Ok (Pair ids mask) ->
     Forall (Forall (eq 1%Z)) mask /\
     sum mask = (Z.of_nat (size0 mask) * Z.of_nat (size1 mask))%Z /\
     (forall i j, entry ids i j = Some (mask_token_id self) -> entry mask i j = Some 1%Z)).
Proof.
  intros Hc Hatt.
  assert (Hmain : forall st1 ids mask,
     query_side self batch fls = Ok st1 ->
     splice self batch context st1 = Ok (ids, mask) ->
     let mask' := masked_set (mask_token_id self) 1%Z ids mask in
     (forall i j, entry ids i j = Some (mask_token_id self) -> entry mask' i j = Some 1%Z) /\
     ((tensorize self batch bsize context fls = Ok (finish bsize (ids, mask')) /\
       Forall (Forall (eq 1%Z)) mask' /\
       sum mask' = (Z.of_nat (size0 mask') * Z.of_nat (size1 mask'))%Z) \/
      (tensorize self batch bsize context fls = Raise (AssertionError InvariantViolation) /\
       ~ Forall (Forall (eq 1%Z)) mask'))).
  { intros [ids1 mask1] ids mask Hq Hs mask'.
    destruct (@query_side_shape self batch fls ids1 mask1 Hc Hq) as (L & Hn & S1 & S1' & B1).
    destruct (@splice_shape self batch context (ids1, mask1) (ids, mask) L Hc S1 S1' B1 Hs)
      as (L' & _ & S2 & S2' & B2). cbn [fst snd] in S2, S2', B2.
    destruct (@attend_spec self ids mask _ L' Hatt Hn S2 S2' B2) as (_ & He & Hcases).
    split; [exact He |].
    unfold tensorize. rewrite Hq. cbn [bind]. rewrite Hs. cbn [bind].
    destruct Hcases as [(Ha & Hall & Hsum) | (Ha & Hnot)]; rewrite Ha; cbn [bind].
    - left. auto.
    - right. auto. }
  split; [exact Hmain |].
  intros ids mask Ht. pose proof Ht as Ht'. apply tensorize_inv in Ht'.
  destruct Ht' as (st1 & [ids2 mask2] & st3 & Hq & Hs & _ & _).
  destruct (Hmain st1 ids2 mask2 Hq Hs) as (He & [(Heq & Hall & Hsum) | (Heq & _)]).
  - rewrite Heq in Ht.
    assert (Hf : finish bsize (ids2, masked_set (mask_token_id self) 1%Z ids2 mask2)
                 = Pair ids mask) by congruence.
    apply finish_Pair in Hf. injection Hf as <- <-. auto.
  - rewrite Heq in Ht. discriminate.
Qed.

Lemma attend_to_mask_tokens_dense_witness :
  let self := Toy.qt 8 "mask" 0 true in
  let batch := PyList ["ab"; "abcd"]%string in
  TokContract (tok self) /\
  Config.attend_to_mask_tokens (config self) = true /\
  exists ids mask,
    tensorize self batch None None false = Ok (Pair ids mask) /\
    Forall (Forall (eq 1%Z)) mask /\
    sum mask = (Z.of_nat (size0 mask) * Z.of_nat (size1 mask))%Z.
Proof.
  intros self batch.
  assert (Hc : TokContract (tok self)) by exact ToyFacts.contract.
  assert (Ha : Config.attend_to_mask_tokens (config self) = true) by reflexivity.
  split; [exact Hc |]. split; [exact Ha |].
  destruct (@attend_to_mask_tokens_dense self batch None None false Hc Ha) as [_ Hret].
  eexists. eexists. split; [vm_compute; reflexivity |].
  match goal with
  | |- Forall _ ?m /\ _ =>
      destruct (Hret [[101; 1; 1097; 1098; 102; 103; 103; 103];
                      [101; 1; 1097; 1098; 1099; 1100; 102; 103]]%Z m) as (H1 & H2 & _);
        [vm_compute; reflexivity | split; [exact H1 | exact H2]]
  end.
Defined.

(** With a cap and the mask-token policy, the capped positions hold the pad
    id, the forced mask is not all ones, and the call fails. *)
Example attend_with_cap_fails :
  tensorize (Toy.qt 8 "mask" 2 true) (PyList ["ab"; "abcd"]%string) None None false =
  Raise (AssertionError InvariantViolation).
Proof. vm_compute. reflexivity. Qed.

(** ** When the query side returns *)

Lemma target_length_total (self : QueryTokenizer) (batch_text : list string) (fls : bool) :
  batch_text <> [] ->
  exists target,
    target_length self batch_text fls = Ok target /\
    (fls = false -> target = query_maxlen self) /\
    (Z.min 500 (query_maxlen self) <= target)%Z.
Proof.
  intros Hne. unfold target_length. destruct fls.
  - destruct (@py_max_nonempty
                (map (fun x => Z.of_nat (length x)) (map (Tok.input_ids (tok self)) batch_text)))
      as [len Hlen].
    { destruct batch_text; [congruence | discriminate]. }
    rewrite Hlen. cbn [bind]. eexists. split; [reflexivity |].
    split; [discriminate | unfold max_len; lia].
  - eexists. split; [reflexivity |]. split; [reflexivity | lia].
Qed.

Lemma marked_total (self : QueryTokenizer) (batch : pyseq) (fls : bool) :
  TokContract (tok self) ->
  is_list_or_tuple batch = true ->
  items batch <> [] ->
  (2 <= query_maxlen self)%Z ->
  (fls = true -> length (items batch) = 1) ->
  exists ids mask, marked self batch fls = Ok (ids, mask).
Proof.
  intros Hc Hty Hne Hq Hfls. unfold marked. rewrite Hty. cbn [assert bind].
  assert (Hchk : negb fls || (length (map (String.append ". ") (items batch)) =? 1) = true).
  { destruct fls; [| reflexivity]. simpl. rewrite length_map.
    apply Nat.eqb_eq. now apply Hfls. }
  rewrite Hchk. cbn [assert bind].
  set (batch_text := map (String.append ". ") (items batch)).
  assert (Hbt : batch_text <> []).
  { unfold batch_text. destruct (items batch); [congruence | discriminate]. }
  destruct (@target_length_total self batch_text fls Hbt) as (target & Ht & _ & Hlow).
  rewrite Ht. cbn [bind].
  destruct (max_length_shape Hc batch_text target) as (w & Hids & _ & Hw).
  assert (H2 : (2 <= target)%Z) by lia. specialize (Hw H2).
  destruct (Tok.call_max_length (tok self) batch_text target) as [ids0 mask0].
  cbn [fst] in Hids.
  assert (Hn : length batch_text <> 0).
  { intros E. apply length_zero_iff_nil in E. contradiction. }
  destruct (@set_column1_shape (Q_marker_token_id self) ids0 _ w Hids Hn) as [Heq _]; [lia |].
  rewrite Heq. cbn [bind]. eexists. eexists. reflexivity.
Qed.

Lemma query_side_total (self : QueryTokenizer) (batch : pyseq) (fls : bool) :
  TokContract (tok self) ->
  is_list_or_tuple batch = true ->
  items batch <> [] ->
  (2 <= query_maxlen self)%Z ->
  (fls = true -> length (items batch) = 1) ->
  exists ids mask, query_side self batch fls = Ok (ids, mask).
Proof.
  intros Hc Hty Hne Hq Hfls.
  destruct (@marked_total self batch fls Hc Hty Hne Hq Hfls) as (ids0 & mask0 & Hm).
  destruct (Z.lt_ge_cases 0 (Config.cap_padding (config self))) as [Hk | Hk].
  - destruct (@query_side_capped self batch fls ids0 mask0 Hc Hk Hm)
      as (w & M & ids & mask & _ & _ & _ & _ & Hqs & _).
    now exists ids, mask.
  - unfold query_side. rewrite Hm. cbn [bind]. rewrite cap_off by assumption.
    destruct (pad_policy self (ids0, mask0)) as [ids mask]. now exists ids, mask.
Qed.

Lemma query_side_not_single (self : QueryTokenizer) (batch : pyseq) :
  is_list_or_tuple batch = true ->
  length (items batch) <> 1 ->
  query_side self batch true = Raise (AssertionError InvalidArgument).
Proof.
  intros Hty Hlen. unfold query_side.
  now rewrite marked_full_length_not_single.
Qed.

(** ** Context *)

(** C7: with a context of the length of the batch, [tensorize] drops
    position 0 of every tokenized context row and appends what remains, ids
    and mask, to the right of the query ids and mask: the returned width is
    the query-side width plus the tokenized-context width minus 1.  With a
    context of another length it fails with InvalidArgument. *)
Theorem context_splice (self : QueryTokenizer) (batch : pyseq) (bsize : option Z)
  (context : list string) (fls : bool) :
  let n := length (items batch) in
  let ids_c := fst (Tok.call_longest (tok self) context (background_maxlen self)) in
  let mask_c := snd (Tok.call_longest (tok self) context (background_maxlen self)) in
  TokContract (tok self) ->
  is_list_or_tuple batch = true ->
  items batch <> [] ->
  (2 <= query_maxlen self)%Z ->
  (length context <> n ->
   tensorize self batch bsize (Some context) fls = Raise (AssertionError InvalidArgument)) /\
  (length context = n -> (fls = true -> n = 1) ->
   exists qids qmask L cw,
     query_side self batch fls = Ok (qids, qmask) /\
     shape qids n L /\ shape qmask n L /\
     shape ids_c n cw /\ shape mask_c n cw /\ 1 <= cw /\
     let ids := map2 (@app Z) qids (map (skipn 1) ids_c) in
     let mask := map2 (@app Z) qmask (map (skipn 1) mask_c) in
     shape ids n (L + cw - 1) /\ shape mask n (L + cw - 1) /\
     (Config.attend_to_mask_tokens (config self) = false ->
      tensorize self batch bsize (Some context) fls = Ok (finish bsize (ids, mask))) /\
     (forall out_ids out_mask,
        tensorize self batch bsize (Some context) fls = Ok (Pair out_ids out_mask) ->
        out_ids = ids /\ shape out_mask n (L + cw - 1) /\
        (Config.attend_to_mask_tokens (config self) = false -> out_mask = mask))).
Proof.
  intros n ids_c mask_c Hc Hty Hne Hq. split.
  - intros Hlen. unfold tensorize.
    destruct fls.
    + destruct (Nat.eq_dec n 1) as [E | E].
      * destruct (@query_side_total self batch true Hc Hty Hne Hq (fun _ => E))
          as (qids & qmask & Hqs).
        destruct (@query_side_shape self batch true qids qmask Hc Hqs) as (L & _ & S & S' & _).
        rewrite Hqs. cbn [bind].
        destruct (@splice_spec self batch context qids qmask L Hc S S') as [Hbad _].
        rewrite (Hbad Hlen). reflexivity.
      * rewrite query_side_not_single by assumption. reflexivity.
    + destruct (@query_side_total self batch false Hc Hty Hne Hq) as (qids & qmask & Hqs);
        [discriminate |].
      destruct (@query_side_shape self batch false qids qmask Hc Hqs) as (L & _ & S & S' & _).
      rewrite Hqs. cbn [bind].
      destruct (@splice_spec self batch context qids qmask L Hc S S') as [Hbad _].
      rewrite (Hbad Hlen). reflexivity.
  - intros Hlen Hfls.
    destruct (@query_side_total self batch fls Hc Hty Hne Hq Hfls) as (qids & qmask & Hqs).
    destruct (@query_side_shape self batch fls qids qmask Hc Hqs) as (L & Hn & S & S' & _).
    destruct (@splice_spec self batch context qids qmask L Hc S S') as [_ Hgood].
    destruct (Hgood Hlen) as (cw & Hcw & So & So' & Heq & Sc & Sc' & _).
    exists qids, qmask, L, cw. fold n in S, S', So, So', Sc, Sc'.
    fold ids_c in So, Sc, Heq. fold mask_c in So', Sc', Heq.
    split; [exact Hqs |]. split; [exact S |]. split; [exact S' |].
    split; [exact So |]. split; [exact So' |]. split; [exact Hcw |].
    cbv zeta. split; [exact Sc |]. split; [exact Sc' |].
    assert (Hten : tensorize self batch bsize (Some context) fls =
                   (st <- attend self (map2 (@app Z) qids (map (skipn 1) ids_c),
                                       map2 (@app Z) qmask (map (skipn 1) mask_c)) ;;
                    Ok (finish bsize st))).
    { unfold tensorize. rewrite Hqs. cbn [bind]. rewrite Heq. reflexivity. }
    split.
    + intros Hatt. rewrite Hten, attend_off by assumption. reflexivity.
    + intros out_ids out_mask Hout. rewrite Hten in Hout.
      apply bind_Ok in Hout. destruct Hout as (st3 & Ha & Hf).
      assert (Hf' : finish bsize st3 = Pair out_ids out_mask) by congruence.
      apply finish_Pair in Hf'. subst st3.
      apply attend_inv in Ha. cbn [fst snd] in Ha. destruct Ha as (Hids & Hoff & Hon).
      split; [exact Hids |]. split.
      * destruct (Config.attend_to_mask_tokens (config self)) eqn:Hatt.
        -- destruct (Hon eq_refl) as [-> _]. now apply masked_set_shape.
        -- specialize (Hoff eq_refl). injection Hoff as _ ->. exact Sc'.
      * intros Hatt. specialize (Hoff Hatt). now injection Hoff as _ ->.
Qed.

Lemma context_splice_witness :
  let self := Toy.qt 8 "mask" 0 false in
  let batch := PyList ["ab"; "abcd"]%string in
  let context := ["xyz"; "x"]%string in
  let ids_c := fst (Tok.call_longest (tok self) context (background_maxlen self)) in
  let mask_c := snd (Tok.call_longest (tok self) context (background_maxlen self)) in
  TokContract (tok self) /\
  is_list_or_tuple batch = true /\
  items batch <> [] /\
  (2 <= query_maxlen self)%Z /\
  length ["xyz"%string] <> length (items batch) /\
  length context = length (items batch) /\
  tensorize self batch None (Some ["xyz"%string]) false =
    Raise (AssertionError InvalidArgument) /\
  exists qids qmask L cw,
    query_side self batch false = Ok (qids, qmask) /\
    shape qids 2 L /\ shape ids_c 2 cw /\
    shape (map2 (@app Z) qids (map (skipn 1) ids_c)) 2 (L + cw - 1) /\
    tensorize self batch None (Some context) false =
      Ok (Pair (map2 (@app Z) qids (map (skipn 1) ids_c))
               (map2 (@app Z) qmask (map (skipn 1) mask_c))).
Proof.
  intros self batch context ids_c mask_c.
  assert (Hc : TokContract (tok self)) by exact ToyFacts.contract.
  assert (Hty : is_list_or_tuple batch = true) by reflexivity.
  assert (Hne : items batch <> []) by discriminate.
  assert (Hq : (2 <= query_maxlen self)%Z) by (vm_compute; discriminate).
  assert (Hbad : length ["xyz"%string] <> length (items batch)) by (simpl; lia).
  assert (Hgood : length context = length (items batch)) by reflexivity.
  split; [exact Hc |]. split; [exact Hty |]. split; [exact Hne |]. split; [exact Hq |].
  split; [exact Hbad |]. split; [exact Hgood |]. split.
  - destruct (@context_splice self batch None ["xyz"%string] false Hc Hty Hne Hq)
      as [H _].
    exact (H Hbad).
  - destruct (@context_splice self batch None context false Hc Hty Hne Hq) as [_ H].
    destruct (H Hgood) as (qids & qmask & L & cw & Hqs & SL & _ & Scw & _ & _ & S & _ & Hret & _);
      [discriminate |].
    exists qids, qmask, L, cw.
    split; [exact Hqs |]. split; [exact SL |]. split; [exact Scw |]. split; [exact S |].
    apply Hret. reflexivity.
Defined.

(** The example above, computed: query-side width 8, tokenized context width
    5, returned width 8 + 5 - 1 = 12. *)
Example spliced_batch_example :
  let self := Toy.qt 8 "mask" 0 false in
  fst (Tok.call_longest (tok self) ["xyz"; "x"]%string (background_maxlen self)) =
    [[101; 1120; 1121; 1122; 102]; [101; 1120; 102; 0; 0]]%Z /\
  tensorize self (PyList ["ab"; "abcd"]%string) None (Some ["xyz"; "x"]%string) false =
  Ok (Pair [[101; 1; 1097; 1098; 102; 103; 103; 103; 1120; 1121; 1122; 102];
            [101; 1; 1097; 1098; 1099; 1100; 102; 103; 1120; 102; 0; 0]]%Z
           [[1; 1; 1; 1; 1; 0; 0; 0; 1; 1; 1; 1];
            [1; 1; 1; 1; 1; 1; 1; 0; 1; 1; 0; 0]]%Z).
Proof. vm_compute. split; reflexivity. Qed.

(** ** The marker column *)

Lemma count_ne_pos (pad x : Z) (row : list Z) (j : nat) :
  nth_error row j = Some x -> x <> pad -> (1 <= count_ne pad row)%Z.
Proof.
  intros Hj Hx. unfold count_ne.
  assert (Hin : In x (filter (fun y => negb (y =? pad)%Z) row)).
  { apply filter_In. split; [eapply nth_error_In; eassumption |].
    apply negb_true_iff. now apply Z.eqb_neq. }
  destruct (filter _ row); [contradiction | simpl; lia].
Qed.





(** [tensorize] returns when the checks pass and no dense mask is asked for. *)
Lemma tensorize_total (self : QueryTokenizer) (batch : pyseq) (bsize : option Z)
  (context : option (list string)) (fls : bool) :
  TokContract (tok self) ->
  is_list_or_tuple batch = true ->
  items batch <> [] ->
  (2 <= query_maxlen self)%Z ->
  (fls = true -> length (items batch) = 1) ->
  (forall c, context = Some c -> length c = length (items batch)) ->
  Config.attend_to_mask_tokens (config self) = false ->
  exists ids mask, tensorize self batch bsize context fls = Ok (finish bsize (ids, mask)).
Proof.
  intros Hc Hty Hne Hq Hfls Hctx Hatt.
  destruct (@query_side_total self batch fls Hc Hty Hne Hq Hfls) as (qids & qmask & Hqs).
  unfold tensorize. rewrite Hqs. cbn [bind].
  destruct context as [c |].
  - destruct (@query_side_shape self batch fls qids qmask Hc Hqs) as (L & _ & S & S' & _).
    destruct (@splice_spec self batch c qids qmask L Hc S S') as [_ Hgood].
    destruct (Hgood (Hctx c eq_refl)) as (cw & _ & _ & _ & Heq & _).
    rewrite Heq. cbn [bind]. rewrite attend_off by assumption. cbn [bind].
    eexists. eexists. reflexivity.
  - cbn [splice bind]. rewrite attend_off by assumption. cbn [bind].
    eexists. eexists. reflexivity.
Qed.






(** ** The shape of the result *)

(** C1, as amended: for a non-empty batch and no context, the [ids] and [mask]
    that [tensorize] returns have one shape [(batch_size, L)].  The tokenizer
    pads to a width [W >= query_maxlen]; with [cap_padding <= 0], [L = W]; with
    [cap_padding = k > 0], [L = min(W, max_i (unpadded_sizes[i] + k))], which
    can be smaller than [query_maxlen].  (Under [full_length_search],
    [W >= query_maxlen] needs [query_maxlen <= 500].) *)
Theorem tensorize_shape (self : QueryTokenizer) (batch : pyseq) (fls : bool) :
  let k := Config.cap_padding (config self) in
  let n := length (items batch) in
  TokContract (tok self) ->
  (fls = true -> (query_maxlen self <= 500)%Z) ->
  (forall ids mask,
     tensorize self batch None None fls = Ok (Pair ids mask) ->
     exists L W ids0 mask0,
       n <> 0 /\ shape ids n L /\ shape mask n L /\
       marked self batch fls = Ok (ids0, mask0) /\ shape ids0 n W /\
       (query_maxlen self <= Z.of_nat W)%Z /\
       ((k <= 0)%Z -> L = W) /\
       ((0 < k)%Z ->
        let size i := count_ne (pad_token_id self) (nth i ids0 []) in
        exists M, (exists i, i < n /\ M = (size i + k)%Z) /\
                  (forall i, i < n -> (size i + k <= M)%Z) /\
                  Z.of_nat L = Z.min (Z.of_nat W) M)) /\
  (is_list_or_tuple batch = true ->
   items batch <> [] ->
   (2 <= query_maxlen self)%Z ->
   (fls = true -> n = 1) ->
   Config.attend_to_mask_tokens (config self) = false ->
   exists ids mask, tensorize self batch None None fls = Ok (Pair ids mask)).
Proof.
  intros k n Hc H500. split.
  - intros ids mask Ht. apply tensorize_inv in Ht.
    destruct Ht as ([ids1 mask1] & st2 & [ids3 mask3] & Hq & Hs & Ha & Hf).
    symmetry in Hf. apply finish_Pair in Hf. injection Hf as -> ->.
    cbn [splice] in Hs. injection Hs as <-.
    destruct (@query_side_shape self batch fls ids1 mask1 Hc Hq) as (L & Hn & S & S' & B).
    pose proof Hq as Hq'. apply query_side_inv in Hq'.
    destruct Hq' as (ids0 & mask0 & Hm & Hcap).
    destruct (@marked_shape self batch fls ids0 mask0 Hc Hm)
      as (W & target & _ & HW & S0 & S0' & _ & _ & Htl & HWt).
    assert (Hmask : shape mask n L).
    { apply attend_inv in Ha. cbn [fst snd] in Ha. destruct Ha as (_ & Hoff & Hon).
      destruct (Config.attend_to_mask_tokens (config self)).
      - destruct (Hon eq_refl) as [-> _]. now apply masked_set_shape.
      - specialize (Hoff eq_refl). now injection Hoff as _ ->. }
    assert (Hids : ids = ids1).
    { apply attend_inv in Ha. now destruct Ha as (Hi & _). }
    subst ids.
    exists L, W, ids0, mask0.
    split; [exact Hn |]. split; [exact S |]. split; [exact Hmask |].
    split; [exact Hm |]. split; [exact S0 |]. split.
    { apply target_length_Ok in Htl. destruct Htl as [Hoff Hon].
      destruct (Z.lt_ge_cases target 2) as [Hlt | Hge].
      - destruct fls.
        + destruct (Hon eq_refl) as [len ->]. specialize (H500 eq_refl).
          unfold max_len in Hlt. lia.
        + rewrite (Hoff eq_refl) in Hlt. lia.
      - rewrite (HWt Hge). destruct fls.
        + destruct (Hon eq_refl) as [len ->]. specialize (H500 eq_refl).
          unfold max_len. lia.
        + rewrite (Hoff eq_refl). lia. }
    split.
    + intros Hk. rewrite cap_off in Hcap by assumption.
      assert (Hpp : pad_policy self (ids0, mask0) = (ids1, mask1)) by congruence.
      pose proof (@pad_policy_shape self (ids0, mask0) _ _ S0) as S1.
      rewrite Hpp in S1. cbn [fst] in S1.
      exact (shape_unique S S1 Hn).
    + intros Hk size.
      destruct (@query_side_capped self batch fls ids0 mask0 Hc Hk Hm)
        as (w' & M & ids' & mask' & S0q & _ & Hex & Hall & Hq2 & Hs & _).
      rewrite Hq in Hq2. injection Hq2 as <- <-.
      assert (Hw' : w' = W) by exact (shape_unique S0q S0 Hn). subst w'.
      exists M. split; [exact Hex |]. split; [exact Hall |].
      assert (HL : L = Z.to_nat (Z.min (Z.of_nat W) M)) by exact (shape_unique S Hs Hn).
      destruct Hex as (i & _ & HM). unfold count_ne in HM. lia.
  - intros Hty Hne Hq Hfls Hatt.
    destruct (@tensorize_total self batch None None fls Hc Hty Hne Hq Hfls) as (ids & mask & Ht);
      [discriminate | exact Hatt |].
    now exists ids, mask.
Qed.

Lemma tensorize_shape_witness :
  let self := Toy.qt 32 "mask" 8 false in
  let batch := PyList ["what is colbert"%string] in
  TokContract (tok self) /\
  (false = true -> (query_maxlen self <= 500)%Z) /\
  exists ids mask L W,
    tensorize self batch None None false = Ok (Pair ids mask) /\
    shape ids 1 L /\ shape mask 1 L /\
    (query_maxlen self <= Z.of_nat W)%Z /\
    exists M, Z.of_nat L = Z.min (Z.of_nat W) M.
Proof.
  intros self batch.
  assert (Hc : TokContract (tok self)) by exact ToyFacts.contract.
  assert (H500 : false = true -> (query_maxlen self <= 500)%Z) by discriminate.
  split; [exact Hc |]. split; [exact H500 |].
  destruct (@tensorize_shape self batch false Hc H500) as [Hshape Hret].
  destruct Hret as (ids & mask & Ht);
    [reflexivity | discriminate | vm_compute; discriminate | discriminate | reflexivity |].
  destruct (Hshape ids mask Ht)
    as (L & W & ids0 & mask0 & _ & S & S' & _ & _ & HW & _ & Hk).
  destruct Hk as (M & _ & _ & HL); [vm_compute; reflexivity |].
  exists ids, mask, L, W. split; [exact Ht |]. split; [exact S |]. split; [exact S' |].
  split; [exact HW |]. now exists M.
Defined.

(** C1, as stated, fails: with [query_maxlen = 32] and [cap_padding = 8], the
    query "what is colbert" has 16 non-pad ids, and the tensors returned have
    width 24. *)
Lemma tensorize_width_counterexample :
  let self := Toy.qt 32 "mask" 8 false in
  let batch := PyList ["what is colbert"%string] in
  exists ids mask,
    tensorize self batch None None false = Ok (Pair ids mask) /\
    shape ids 1 24 /\ shape mask 1 24 /\
    ~ (exists L, shape ids 1 L /\ shape mask 1 L /\ (query_maxlen self <= Z.of_nat L)%Z).
Proof.
  intros self batch. eexists. eexists.
  split; [vm_compute; reflexivity |].
  split; [apply shape_shapeb; reflexivity |].
  split; [apply shape_shapeb; reflexivity |].
  intros (L & [_ Hrows] & _ & Hq).
  inversion Hrows as [| row rest Hlen _]; subst.
  vm_compute in Hq. apply Hq. reflexivity.
Qed.


(** * Further properties of the class *)

(** ** Lengths of the framed rows *)

Lemma spec_framing_length {A : Type} (b m s k : A) (maxlen : Z) (tokens : list A) :
  Z.of_nat (length (spec_framing b m s k maxlen tokens)) =
  Z.max maxlen (Z.of_nat (length tokens) + 3).
Proof.
  unfold spec_framing, times. cbv zeta.
  rewrite !length_app, repeat_length. simpl length. lia.
Qed.

(** X1: with [add_special_tokens] true, [tokenize] and [encode] return one row
    per input, and the row of an input with [len] raw tokens has length
    [max(query_maxlen, len + 3)]: exactly [query_maxlen] while the query fits,
    longer otherwise. *)
Theorem framed_rows_length (self : QueryTokenizer) (batch : list string) :
  (exists rows,
     tokenize self (PyList batch) true = Ok rows /\
     length rows = length batch /\
     map (fun row => Z.of_nat (length row)) rows =
     map (fun x => Z.max (query_maxlen self)
                     (Z.of_nat (length (Tok.tokenize (tok self) x)) + 3)) batch) /\
  (exists rows,
     encode self (PyList batch) true = Ok rows /\
     length rows = length batch /\
     map (fun row => Z.of_nat (length row)) rows =
     map (fun x => Z.max (query_maxlen self)
                     (Z.of_nat (length (Tok.input_ids (tok self) x)) + 3)) batch).
Proof.
  split; eexists.
  - split; [apply (tokenize_special self (PyList batch)); reflexivity |].
    split; [apply length_map |].
    rewrite map_map. apply map_ext. intros x. apply spec_framing_length.
  - split; [apply (encode_special self (PyList batch)); reflexivity |].
    split; [apply length_map |].
    rewrite map_map. apply map_ext. intros x. apply spec_framing_length.
Qed.

(** ** The clamp *)

(** X3: [max_len] never exceeds 500, is monotone and idempotent; when
    [query_maxlen <= 500] it lies in [[query_maxlen, 500]] and is the identity
    on that interval; when [query_maxlen > 500] it is 500 for every length,
    below [query_maxlen]. *)
Theorem max_len_clamp (self : QueryTokenizer) (a b : Z) :
  (max_len self a <= 500)%Z /\
  ((a <= b)%Z -> (max_len self a <= max_len self b)%Z) /\
  max_len self (max_len self a) = max_len self a /\
  ((query_maxlen self <= 500)%Z ->
   (query_maxlen self <= max_len self a)%Z /\
   ((query_maxlen self <= a <= 500)%Z -> max_len self a = a)) /\
  ((500 < query_maxlen self)%Z ->
   max_len self a = 500%Z /\ (max_len self a < query_maxlen self)%Z).
Proof. unfold max_len. lia. Qed.

Lemma max_len_clamp_witness :
  let self := Toy.qt 32 "mask" 0 false in
  (7 <= 40)%Z /\ (query_maxlen self <= 500)%Z /\ (query_maxlen self <= 40 <= 500)%Z /\
  max_len self 7 = 32%Z /\ max_len self 40 = 40%Z /\
  (max_len self 7 <= max_len self 40)%Z /\
  (500 < query_maxlen (Toy.qt 501 "mask" 0 false))%Z /\
  max_len (Toy.qt 501 "mask" 0 false) 7 = 500%Z.
Proof.
  intros self.
  assert (H1 : (7 <= 40)%Z) by lia.
  assert (H2 : (query_maxlen self <= 500)%Z) by (vm_compute; discriminate).
  assert (H3 : (query_maxlen self <= 40 <= 500)%Z) by (vm_compute; split; discriminate).
  assert (H4 : (500 < query_maxlen (Toy.qt 501 "mask" 0 false))%Z) by (vm_compute; reflexivity).
  destruct (max_len_clamp self 7 40) as (_ & Hmono & _ & _ & _).
  destruct (max_len_clamp self 40 40) as (_ & _ & _ & Hin & _).
  destruct (max_len_clamp (Toy.qt 501 "mask" 0 false) 7 7) as (_ & _ & _ & _ & Hbig).
  split; [exact H1 |]. split; [exact H2 |]. split; [exact H3 |].
  split; [reflexivity |]. split; [exact (proj2 (Hin H2) H3) |].
  split; [exact (Hmono H1) |]. split; [exact H4 | exact (proj1 (Hbig H4))].
Defined.

(** ** What [tensorize] can raise *)

Lemma tensorize_type_error (self : QueryTokenizer) (batch : pyseq) (bsize : option Z)
  (context : option (list string)) (fls : bool) :
  is_list_or_tuple batch = false ->
  tensorize self batch bsize context fls = Raise (AssertionError TypeKind).
Proof.
  intros Hty. unfold tensorize, query_side, marked. rewrite Hty. reflexivity.
Qed.

(** X4: for a non-empty batch, [query_maxlen >= 2] and a tokenizer that meets
    its contract, the only exceptions [tensorize] raises are those of its own
    asserts, each for its own reason: the type check; [full_length_search] on
    a batch that is not single or a context of another length; the dense-mask
    check, which can only fail when [attend_to_mask_tokens] is set.  It raises
    no index, value or runtime error. *)
Theorem tensorize_raises_only_asserts (self : QueryTokenizer) (batch : pyseq)
  (bsize : option Z) (context : option (list string)) (fls : bool) (e : exception) :
  TokContract (tok self) ->
  items batch <> [] ->
  (2 <= query_maxlen self)%Z ->
  tensorize self batch bsize context fls = Raise e ->
  (e = AssertionError TypeKind /\ is_list_or_tuple batch = false) \/
  (e = AssertionError InvalidArgument /\
   ((fls = true /\ length (items batch) <> 1) \/
    (exists c, context = Some c /\ length c <> length (items batch)))) \/
  (e = AssertionError InvariantViolation /\
   Config.attend_to_mask_tokens (config self) = true).
Proof.
  intros Hc Hne Hq Ht.
  destruct (is_list_or_tuple batch) eqn:Hty.
  2:{ left. rewrite tensorize_type_error in Ht by assumption. split; congruence. }
  right.
  assert (Hsingle : (fls = true /\ length (items batch) <> 1) \/
                    (fls = true -> length (items batch) = 1)).
  { destruct fls; [| right; discriminate].
    destruct (Nat.eq_dec (length (items batch)) 1); [right; auto | left; auto]. }
  destruct Hsingle as [[-> Hn1] | Hfls].
  { left. unfold tensorize in Ht. rewrite query_side_not_single in Ht by assumption.
    cbn [bind] in Ht. split; [congruence | left; auto]. }
  destruct (@query_side_total self batch fls Hc Hty Hne Hq Hfls) as (qids & qmask & Hqs).
  destruct (@query_side_shape self batch fls qids qmask Hc Hqs) as (L & Hn & S & S' & B).
  unfold tensorize in Ht. rewrite Hqs in Ht. cbn [bind] in Ht.
  destruct (splice self batch context (qids, qmask)) as [[ids2 mask2] | e2] eqn:Hs.
  - destruct (@splice_shape self batch context (qids, qmask) (ids2, mask2) L Hc S S' B Hs)
      as (L' & _ & S2 & S2' & B2). cbn [fst snd] in S2, S2', B2.
    cbn [bind] in Ht.
    destruct (Config.attend_to_mask_tokens (config self)) eqn:Hatt.
    + right.
      destruct (@attend_spec self ids2 mask2 _ L' Hatt Hn S2 S2' B2)
        as (_ & _ & [(Ha & _) | (Ha & _)]); rewrite Ha in Ht; cbn [bind] in Ht.
      * discriminate.
      * split; congruence.
    + rewrite attend_off in Ht by assumption. discriminate.
  - left. cbn [bind] in Ht. destruct context as [c |]; [| discriminate].
    destruct (@splice_spec self batch c qids qmask L Hc S S') as [Hbad Hgood].
    destruct (Nat.eq_dec (length c) (length (items batch))) as [E | E].
    + destruct (Hgood E) as (cw & _ & _ & _ & Heq & _). rewrite Heq in Hs. discriminate.
    + rewrite (Hbad E) in Hs. split; [congruence | right; exists c; auto].
Qed.

Lemma tensorize_raises_only_asserts_witness :
  let self := Toy.qt 8 "mask" 2 true in
  let batch := PyList ["ab"; "abcd"]%string in
  TokContract (tok self) /\ items batch <> [] /\ (2 <= query_maxlen self)%Z /\
  tensorize self batch None None false = Raise (AssertionError InvariantViolation) /\
  Config.attend_to_mask_tokens (config self) = true.
Proof.
  intros self batch.
  assert (Hc : TokContract (tok self)) by exact ToyFacts.contract.
  assert (Hne : items batch <> []) by discriminate.
  assert (Hq : (2 <= query_maxlen self)%Z) by (vm_compute; discriminate).
  assert (Ht : tensorize self batch None None false = Raise (AssertionError InvariantViolation))
    by (vm_compute; reflexivity).
  split; [exact Hc |]. split; [exact Hne |]. split; [exact Hq |]. split; [exact Ht |].
  destruct (@tensorize_raises_only_asserts self batch None None false _ Hc Hne Hq Ht)
    as [[He _] | [[He _] | [_ Ha]]]; [discriminate | discriminate | exact Ha].
Defined.

(** ** The result without a cap *)

Lemma entry_set_column (v : Z) (t : tensor2) (n w i j : nat) :
  shape t n w -> 2 <= w ->
  entry (map (set_nth 1 v) t) i j =
  option_map (fun x => if j =? 1 then v else x) (entry t i j).
Proof.
  intros Hs Hw. unfold entry. rewrite nth_error_map.
  destruct (nth_error t i) as [row |] eqn:Hrow; [| reflexivity].
  cbn [option_map]. rewrite nth_error_set_nth.
  pose proof (shape_row i Hs Hrow) as Hlen.
  destruct (Nat.eqb_spec j 1) as [-> | Hj].
  - destruct (1 <? length row) eqn:E; [| apply Nat.ltb_ge in E; lia].
    destruct (nth_error row 1) eqn:E1; [reflexivity |].
    apply nth_error_None in E1. lia.
  - cbn [andb]. now destruct (nth_error row j).
Qed.

(** X5: with no cap, no context and no forced attention, what [tensorize]
    returns is the tokenizer's output at the target length with the marker
    written over column 1 and, under the mask-token policy, every pad id
    turned into the mask id; every other id and the whole attention mask are
    the tokenizer's.  (The marker id differs from the pad id.) *)
Theorem tensorize_without_cap (self : QueryTokenizer) (batch : pyseq) (fls : bool)
  (ids mask : tensor2) :
  TokContract (tok self) ->
  Q_marker_token_id self <> pad_token_id self ->
  (Config.cap_padding (config self) <= 0)%Z ->
  Config.attend_to_mask_tokens (config self) = false ->
  tensorize self batch None None fls = Ok (Pair ids mask) ->
  exists target,
    let batch_text := map (String.append ". ") (items batch) in
    let tk := Tok.call_max_length (tok self) batch_text target in
    target_length self batch_text fls = Ok target /\
    mask = snd tk /\
    length ids = length (fst tk) /\
    forall i j, entry ids i j = option_map (postprocessed self j) (entry (fst tk) i j).
Proof.
  intros Hc Hne Hk Hatt Ht. apply tensorize_inv in Ht.
  destruct Ht as (st1 & st2 & st3 & Hq & Hs & Ha & Hf).
  symmetry in Hf. apply finish_Pair in Hf. subst st3.
  rewrite attend_off in Ha by assumption.
  assert (E2 : st2 = (ids, mask)) by congruence. subst st2.
  cbn [splice] in Hs. assert (E1 : st1 = (ids, mask)) by congruence. subst st1.
  apply query_side_inv in Hq. destruct Hq as (ids0 & mask0 & Hm & Hcap).
  rewrite cap_off in Hcap by assumption.
  assert (Hpp : pad_policy self (ids0, mask0) = (ids, mask)) by congruence.
  apply marked_inv in Hm. destruct Hm as (_ & _ & target & Htl & Hw & Hids0 & Hmask0).
  exists target. cbv zeta.
  set (tk := Tok.call_max_length (tok self) (map (String.append ". ") (items batch)) target) in *.
  destruct (max_length_shape Hc (map (String.append ". ") (items batch)) target)
    as (w & Stk & _ & _). fold tk in Stk.
  assert (Hn : length (map (String.append ". ") (items batch)) <> 0).
  { intros E. destruct Stk as [Hl _]. rewrite E in Hl.
    apply length_zero_iff_nil in Hl. rewrite Hl in Hw. simpl in Hw. lia. }
  rewrite (shape_size1 Stk Hn) in Hw.
  split; [exact Htl |].
  unfold pad_policy in Hpp. unfold postprocessed.
  destruct (String.eqb (Config.query_pad_tok (config self)) "mask").
  - injection Hpp as <- <-. split; [exact Hmask0 |].
    split; [unfold replace; subst ids0; now rewrite !length_map |].
    intros i j. unfold replace. rewrite entry_map. subst ids0.
    rewrite (entry_set_column _ i j Stk Hw).
    destruct (entry (fst tk) i j) as [x |]; [| reflexivity]. cbn [option_map andb].
    destruct (Nat.eqb_spec j 1); [| reflexivity].
    destruct (Z.eqb_spec (Q_marker_token_id self) (pad_token_id self)); [contradiction |].
    reflexivity.
  - injection Hpp as <- <-. split; [exact Hmask0 |].
    split; [subst ids0; now rewrite length_map |].
    intros i j. subst ids0. rewrite (entry_set_column _ i j Stk Hw).
    destruct (entry (fst tk) i j) as [x |]; reflexivity.
Qed.

Lemma tensorize_without_cap_witness :
  let self := Toy.qt 8 "mask" 0 false in
  let batch := PyList ["ab"%string] in
  let ids := [[101; 1; 1097; 1098; 102; 103; 103; 103]]%Z in
  let mask := [[1; 1; 1; 1; 1; 0; 0; 0]]%Z in
  TokContract (tok self) /\
  Q_marker_token_id self <> pad_token_id self /\
  (Config.cap_padding (config self) <= 0)%Z /\
  Config.attend_to_mask_tokens (config self) = false /\
  tensorize self batch None None false = Ok (Pair ids mask) /\
  exists target,
    target_length self [". ab"%string] false = Ok target /\
    mask = snd (Tok.call_max_length (tok self) [". ab"%string] target).
Proof.
  intros self batch ids mask.
  assert (Hc : TokContract (tok self)) by exact ToyFacts.contract.
  assert (Hne : Q_marker_token_id self <> pad_token_id self) by (vm_compute; discriminate).
  assert (Hk : (Config.cap_padding (config self) <= 0)%Z) by (vm_compute; discriminate).
  assert (Hatt : Config.attend_to_mask_tokens (config self) = false) by reflexivity.
  assert (Ht : tensorize self batch None None false = Ok (Pair ids mask))
    by (vm_compute; reflexivity).
  split; [exact Hc |]. split; [exact Hne |]. split; [exact Hk |]. split; [exact Hatt |].
  split; [exact Ht |].
  destruct (@tensorize_without_cap self batch false ids mask Hc Hne Hk Hatt Ht)
    as (target & Htl & Hmask & _).
  exists target. split; [exact Htl | exact Hmask].
Defined.

(** X6: without cap, context and full-length search, and with
    [query_maxlen >= 2], the tensors returned have exactly [query_maxlen]
    columns (and one row per query); under full-length search of a single
    query they have exactly [max_len(len)] columns, [len] being the
    untruncated tokenized length of the prefixed query. *)
Theorem tensorize_exact_width (self : QueryTokenizer) (batch : pyseq) (fls : bool)
  (ids mask : tensor2) :
  TokContract (tok self) ->
  (2 <= query_maxlen self)%Z ->
  (Config.cap_padding (config self) <= 0)%Z ->
  tensorize self batch None None fls = Ok (Pair ids mask) ->
  (fls = false ->
   shape ids (length (items batch)) (Z.to_nat (query_maxlen self)) /\
   shape mask (length (items batch)) (Z.to_nat (query_maxlen self))) /\
  (fls = true ->
   exists x, items batch = [x] /\
     let w := Z.to_nat (max_len self (Z.of_nat (length (Tok.input_ids (tok self) (". " ++ x))))) in
     shape ids 1 w /\ shape mask 1 w).
Proof.
  intros Hc Hq Hk Ht. apply tensorize_inv in Ht.
  destruct Ht as ([ids1 mask1] & st2 & [ids3 mask3] & Hqs & Hs & Ha & Hf).
  symmetry in Hf. apply finish_Pair in Hf. injection Hf as -> ->.
  cbn [splice] in Hs. injection Hs as <-.
  destruct (@query_side_shape self batch fls ids1 mask1 Hc Hqs) as (L & Hn & S & S' & B).
  assert (Hmask : shape mask (length (items batch)) L).
  { apply attend_inv in Ha. cbn [fst snd] in Ha. destruct Ha as (_ & Hoff & Hon).
    destruct (Config.attend_to_mask_tokens (config self)).
    - destruct (Hon eq_refl) as [-> _]. now apply masked_set_shape.
    - specialize (Hoff eq_refl). now injection Hoff as _ ->. }
  assert (Hids : ids = ids1) by (apply attend_inv in Ha; now destruct Ha).
  subst ids.
  apply query_side_inv in Hqs. destruct Hqs as (ids0 & mask0 & Hm & Hcap).
  rewrite cap_off in Hcap by assumption.
  assert (Hpp : pad_policy self (ids0, mask0) = (ids1, mask1)) by congruence.
  destruct (@marked_shape self batch fls ids0 mask0 Hc Hm)
    as (W & target & _ & HW & S0 & _ & _ & _ & Htl & HWt).
  pose proof (@pad_policy_shape self (ids0, mask0) _ _ S0) as S1.
  rewrite Hpp in S1. cbn [fst] in S1.
  assert (HL : L = W) by exact (shape_unique S S1 Hn). subst L.
  apply marked_inv in Hm. destruct Hm as (_ & Hsingle & _).
  split.
  - intros ->. cbn [target_length] in Htl. injection Htl as <-.
    rewrite <- (HWt Hq). auto.
  - intros ->. specialize (Hsingle eq_refl).
    destruct (items batch) as [| x [| y rest]] eqn:Hitems; try discriminate.
    exists x. split; [reflexivity |]. cbv zeta.
    unfold target_length in Htl. cbn [map py_max fold_left bind] in Htl.
    injection Htl as <-.
    assert (H2 : (2 <= max_len self (Z.of_nat (length (Tok.input_ids (tok self) (". " ++ x)))))%Z)
      by (unfold max_len; lia).
    cbn [String.append] in *. rewrite <- (HWt H2). cbn [length] in S, Hmask. auto.
Qed.

Lemma tensorize_exact_width_witness :
  let self := Toy.qt 4 "mask" 0 false in
  let batch := PyList ["abcdefgh"%string] in
  TokContract (tok self) /\ (2 <= query_maxlen self)%Z /\
  (Config.cap_padding (config self) <= 0)%Z /\
  (exists ids mask,
     tensorize self batch None None false = Ok (Pair ids mask) /\
     shape ids 1 4 /\ shape mask 1 4) /\
  (exists ids mask,
     tensorize self batch None None true = Ok (Pair ids mask) /\
     shape ids 1 9 /\ shape mask 1 9).
Proof.
  intros self batch.
  assert (Hc : TokContract (tok self)) by exact ToyFacts.contract.
  assert (Hq : (2 <= query_maxlen self)%Z) by (vm_compute; discriminate).
  assert (Hk : (Config.cap_padding (config self) <= 0)%Z) by (vm_compute; discriminate).
  split; [exact Hc |]. split; [exact Hq |]. split; [exact Hk |]. split.
  - eexists. eexists. split; [vm_compute; reflexivity |].
    match goal with
    | |- shape ?i _ _ /\ shape ?m _ _ =>
        destruct (@tensorize_exact_width self batch false i m Hc Hq Hk) as [H _];
          [vm_compute; reflexivity | exact (H eq_refl)]
    end.
  - eexists. eexists. split; [vm_compute; reflexivity |].
    match goal with
    | |- shape ?i _ _ /\ shape ?m _ _ =>
        destruct (@tensorize_exact_width self batch true i m Hc Hq Hk) as [_ H];
          [vm_compute; reflexivity |];
          destruct (H eq_refl) as (x & Hx & Hs); injection Hx as <-; exact Hs
    end.
Defined.

(** ** More on the adaptive cap *)

Lemma sum_row_zero_from (row : list Z) (m : nat) :
  Forall (fun b => b = 0%Z \/ b = 1%Z) row ->
  (forall j, m <= j -> j < length row -> nth_error row j = Some 0%Z) ->
  (sum_row row <= Z.of_nat m)%Z.
Proof.
  revert m. induction row as [| b row IH]; intros m Hb Hz.
  - simpl. lia.
  - inversion Hb as [| ? ? Hb0 Hb']; subst.
    change (sum_row (b :: row)) with (b + sum_row row)%Z.
    destruct m as [| m].
    + assert (H0 : b = 0%Z).
      { specialize (Hz 0 (le_n 0)). simpl in Hz. injection Hz; [auto | lia]. }
      assert (Hr : (sum_row row <= Z.of_nat 0)%Z).
      { apply IH; [exact Hb' |]. intros j _ Hj. apply (Hz (S j)); simpl; lia. }
      simpl in Hr. lia.
    + assert (Hr : (sum_row row <= Z.of_nat m)%Z).
      { apply IH; [exact Hb' |]. intros j Hmj Hj. apply (Hz (S j)); simpl; lia. }
      lia.
Qed.

Lemma count_ne_le (pad : Z) (row : list Z) : (0 <= count_ne pad row <= Z.of_nat (length row))%Z.
Proof.
  unfold count_ne. pose proof (filter_length_le (fun x => negb (x =? pad)%Z) row). lia.
Qed.

(** X7: with [cap_padding = k > 0] (and no context, no forced attention), row
    [i] of the attention mask that [tensorize] returns attends at most
    [unpadded_sizes[i] + k] positions: its sum never exceeds that bound. *)
Theorem capped_attention_bound (self : QueryTokenizer) (batch : pyseq) (fls : bool)
  (ids0 mask0 ids mask : tensor2) :
  let k := Config.cap_padding (config self) in
  let size i := count_ne (pad_token_id self) (nth i ids0 []) in
  TokContract (tok self) ->
  (0 < k)%Z ->
  Config.attend_to_mask_tokens (config self) = false ->
  marked self batch fls = Ok (ids0, mask0) ->
  tensorize self batch None None fls = Ok (Pair ids mask) ->
  forall i row, nth_error mask i = Some row -> (sum_row row <= size i + k)%Z.
Proof.
  intros k size Hc Hk Hatt Hm Ht i row Hrow.
  destruct (@marked_shape self batch fls ids0 mask0 Hc Hm)
    as (w0 & target & _ & _ & _ & _ & Hbits0 & _).
  destruct (@query_side_capped self batch fls ids0 mask0 Hc Hk Hm)
    as (w & M & ids' & mask' & _ & _ & _ & _ & _ & _ & Hs & _ & Emask & Hret & Hbits).
  rewrite (Hret Hatt) in Ht. injection Ht as <- <-.
  specialize (Hbits Hbits0).
  assert (Hi : i < length (items batch)).
  { destruct Hs as [Hl _]. rewrite <- Hl. apply nth_error_Some. congruence. }
  pose proof (shape_row i Hs Hrow) as Hlen.
  assert (Hbrow : Forall (fun b => b = 0%Z \/ b = 1%Z) row).
  { unfold bits in Hbits. rewrite Forall_forall in Hbits. apply Hbits.
    eapply nth_error_In. exact Hrow. }
  pose proof (count_ne_le (pad_token_id self) (nth i ids0 [])) as Hsz. fold (size i) in Hsz.
  replace (size i + k)%Z with (Z.of_nat (Z.to_nat (size i + k))) by lia.
  apply sum_row_zero_from; [exact Hbrow |].
  intros j Hmj Hj. rewrite Hlen in Hj.
  specialize (Emask i j Hi Hj). unfold entry at 1 in Emask. rewrite Hrow in Emask.
  fold k in Emask. fold (size i) in Emask.
  destruct (size i + k <=? Z.of_nat j)%Z eqn:E in Emask; [exact Emask |].
  apply Z.leb_gt in E. lia.
Qed.

Lemma capped_attention_bound_witness :
  let self := Toy.qt 8 "mask" 2 false in
  let batch := PyList ["ab"; "abcd"]%string in
  let ids0 := [[101; 1; 1097; 1098; 102; 0; 0; 0];
               [101; 1; 1097; 1098; 1099; 1100; 102; 0]]%Z in
  let mask0 := [[1; 1; 1; 1; 1; 0; 0; 0]; [1; 1; 1; 1; 1; 1; 1; 0]]%Z in
  let ids := [[101; 1; 1097; 1098; 102; 103; 103; 0];
              [101; 1; 1097; 1098; 1099; 1100; 102; 103]]%Z in
  TokContract (tok self) /\
  (0 < Config.cap_padding (config self))%Z /\
  Config.attend_to_mask_tokens (config self) = false /\
  marked self batch false = Ok (ids0, mask0) /\
  tensorize self batch None None false = Ok (Pair ids mask0) /\
  (sum_row [1; 1; 1; 1; 1; 0; 0; 0] <= 5 + 2)%Z.
Proof.
  intros self batch ids0 mask0 ids.
  assert (Hc : TokContract (tok self)) by exact ToyFacts.contract.
  assert (Hk : (0 < Config.cap_padding (config self))%Z) by (vm_compute; reflexivity).
  assert (Hatt : Config.attend_to_mask_tokens (config self) = false) by reflexivity.
  assert (Hm : marked self batch false = Ok (ids0, mask0)) by (vm_compute; reflexivity).
  assert (Ht : tensorize self batch None None false = Ok (Pair ids mask0))
    by (vm_compute; reflexivity).
  split; [exact Hc |]. split; [exact Hk |]. split; [exact Hatt |].
  split; [exact Hm |]. split; [exact Ht |].
  exact (@capped_attention_bound self batch false ids0 mask0 ids mask0 Hc Hk Hatt Hm Ht
           0 [1; 1; 1; 1; 1; 0; 0; 0]%Z eq_refl).
Defined.

Lemma tensor_ext (a b : tensor2) (n w : nat) :
  shape a n w -> shape b n w ->
  (forall i j, i < n -> j < w -> entry a i j = entry b i j) ->
  a = b.
Proof.
  intros Sa Sb He. apply nth_error_ext. intros i.
  destruct (Nat.lt_ge_cases i n) as [Hi | Hi].
  - destruct (nth_error a i) as [ra |] eqn:Ha;
      [| apply nth_error_None in Ha; destruct Sa; lia].
    destruct (nth_error b i) as [rb |] eqn:Hb;
      [| apply nth_error_None in Hb; destruct Sb; lia].
    f_equal. apply nth_error_ext. intros j.
    pose proof (shape_row i Sa Ha) as La. pose proof (shape_row i Sb Hb) as Lb.
    destruct (Nat.lt_ge_cases j w) as [Hj | Hj].
    + specialize (He i j Hi Hj). unfold entry in He. now rewrite Ha, Hb in He.
    + assert (H1 : nth_error ra j = None) by (apply nth_error_None; lia).
      assert (H2 : nth_error rb j = None) by (apply nth_error_None; lia).
      congruence.
  - assert (H1 : nth_error a i = None) by (apply nth_error_None; destruct Sa; lia).
    assert (H2 : nth_error b i = None) by (apply nth_error_None; destruct Sb; lia).
    congruence.
Qed.

(** X8: with [cap_padding = k > 0] and a marker id that is not the pad id,
    every [unpadded_sizes[i]] lies between 1 and the padded width [W], and the
    width [L] the batch is trimmed to satisfies [min(W, k + 1) <= L <= W]: the
    cap never widens the tensors and never trims below [k + 1] columns. *)
Theorem cap_width_bounds (self : QueryTokenizer) (batch : pyseq) (fls : bool)
  (ids0 mask0 ids mask : tensor2) :
  let k := Config.cap_padding (config self) in
  let n := length (items batch) in
  let size i := count_ne (pad_token_id self) (nth i ids0 []) in
  TokContract (tok self) ->
  Q_marker_token_id self <> pad_token_id self ->
  (0 < k)%Z ->
  marked self batch fls = Ok (ids0, mask0) ->
  query_side self batch fls = Ok (ids, mask) ->
  exists W L,
    shape ids0 n W /\ shape ids n L /\ shape mask n L /\
    L <= W /\ (Z.min (Z.of_nat W) (k + 1) <= Z.of_nat L)%Z /\
    forall i, i < n -> (1 <= size i <= Z.of_nat W)%Z.
Proof.
  intros k n size Hc Hne Hk Hm Hq.
  destruct (@marked_shape self batch fls ids0 mask0 Hc Hm)
    as (W0 & target & Hn & HW & S0 & _ & _ & Hmark & _).
  destruct (@query_side_capped self batch fls ids0 mask0 Hc Hk Hm)
    as (W & M & ids' & mask' & S0' & _ & (i0 & Hi0 & HM) & _ & Hq2 & Hs & Hs' & _).
  rewrite Hq in Hq2. injection Hq2 as <- <-.
  assert (HWW : W0 = W) by exact (shape_unique S0 S0' Hn). subst W0.
  assert (Hsize : forall i, i < n -> (1 <= size i <= Z.of_nat W)%Z).
  { intros i Hi.
    assert (Hlt : i < length ids0) by (destruct S0; unfold n in Hi; lia).
    assert (Hrow : nth_error ids0 i = Some (nth i ids0 [])) by now apply nth_error_nth'.
    pose proof (count_ne_le (pad_token_id self) (nth i ids0 [])) as Hle.
    rewrite (shape_row i S0 Hrow) in Hle. split; [| exact (proj2 Hle)].
    rewrite Forall_forall in Hmark.
    apply (@count_ne_pos _ (Q_marker_token_id self) _ 1); [| exact Hne].
    apply Hmark. eapply nth_error_In. exact Hrow. }
  exists W, (Z.to_nat (Z.min (Z.of_nat W) M)).
  split; [exact S0' |]. split; [exact Hs |]. split; [exact Hs' |].
  pose proof (Hsize i0 Hi0) as H0. fold (size i0) in HM.
  split; [lia |]. split; [lia | exact Hsize].
Qed.

Lemma cap_width_bounds_witness :
  let self := Toy.qt 32 "mask" 8 false in
  let batch := PyList ["what is colbert"%string] in
  TokContract (tok self) /\
  Q_marker_token_id self <> pad_token_id self /\
  (0 < Config.cap_padding (config self))%Z /\
  exists ids0 mask0 ids mask W L,
    marked self batch false = Ok (ids0, mask0) /\
    query_side self batch false = Ok (ids, mask) /\
    shape ids0 1 W /\ shape ids 1 L /\ L <= W /\
    (Z.min (Z.of_nat W) (8 + 1) <= Z.of_nat L)%Z.
Proof.
  intros self batch.
  assert (Hc : TokContract (tok self)) by exact ToyFacts.contract.
  assert (Hne : Q_marker_token_id self <> pad_token_id self) by (vm_compute; discriminate).
  assert (Hk : (0 < Config.cap_padding (config self))%Z) by (vm_compute; reflexivity).
  split; [exact Hc |]. split; [exact Hne |]. split; [exact Hk |].
  destruct (marked self batch false) as [[ids0 mask0] |] eqn:Hm; [| vm_compute in Hm; discriminate].
  destruct (query_side self batch false) as [[ids mask] |] eqn:Hq;
    [| vm_compute in Hq; discriminate].
  destruct (@cap_width_bounds self batch false ids0 mask0 ids mask Hc Hne Hk Hm Hq)
    as (W & L & S0 & S & _ & HL & HL' & _).
  exists ids0, mask0, ids, mask, W, L.
  split; [reflexivity |]. split; [reflexivity |]. split; [exact S0 |]. split; [exact S |].
  split; [exact HL | exact HL'].
Defined.

(** X9: a cap that reaches the padded width for every row
    ([W <= unpadded_sizes[i] + cap_padding] for all [i], as when
    [cap_padding >= W]) changes nothing: the query side is what the pad
    policy left. *)
Theorem generous_cap_is_identity (self : QueryTokenizer) (batch : pyseq) (fls : bool)
  (ids0 mask0 : tensor2) (W : nat) :
  let k := Config.cap_padding (config self) in
  let n := length (items batch) in
  let size i := count_ne (pad_token_id self) (nth i ids0 []) in
  TokContract (tok self) ->
  (0 < k)%Z ->
  marked self batch fls = Ok (ids0, mask0) ->
  shape ids0 n W ->
  (forall i, i < n -> (Z.of_nat W <= size i + k)%Z) ->
  query_side self batch fls = Ok (pad_policy self (ids0, mask0)).
Proof.
  intros k n size Hc Hk Hm S0 Hgen.
  destruct (@marked_shape self batch fls ids0 mask0 Hc Hm)
    as (W0 & target & Hn & _ & S0a & Sm0 & _).
  assert (HWW : W0 = W) by exact (shape_unique S0a S0 Hn). subst W0.
  destruct (@query_side_capped self batch fls ids0 mask0 Hc Hk Hm)
    as (W' & M & ids & mask & S0' & _ & (i0 & Hi0 & HM) & _ & Hq & Hs & Hs' & Eids & Emask & _).
  assert (HWW : W' = W) by exact (shape_unique S0' S0 Hn). subst W'.
  pose proof (Hgen i0 Hi0) as HMW. fold (size i0) in HM.
  assert (HL : Z.to_nat (Z.min (Z.of_nat W) M) = W) by lia.
  rewrite HL in Hs, Hs', Eids, Emask.
  pose proof (@pad_policy_shape self (ids0, mask0) _ _ S0) as S1.
  pose proof (pad_policy_snd self (ids0, mask0)) as Hsnd.
  change (snd (ids0, mask0)) with mask0 in Hsnd.
  rewrite Hq. f_equal.
  rewrite (surjective_pairing (pad_policy self (ids0, mask0))). f_equal.
  - apply tensor_ext with (n := n) (w := W); [exact Hs | exact S1 |].
    intros i j Hi Hj. rewrite (Eids i j Hi Hj).
    destruct (_ <=? _)%Z eqn:E; [| reflexivity].
    apply Z.leb_le in E. specialize (Hgen i Hi). fold k (size i) in E. lia.
  - rewrite Hsnd. apply tensor_ext with (n := n) (w := W); [exact Hs' | exact Sm0 |].
    intros i j Hi Hj. rewrite (Emask i j Hi Hj).
    destruct (_ <=? _)%Z eqn:E; [| reflexivity].
    apply Z.leb_le in E. specialize (Hgen i Hi). fold k (size i) in E. lia.
Qed.

Lemma generous_cap_is_identity_witness :
  let self := Toy.qt 8 "mask" 8 false in
  let batch := PyList ["ab"; "abcd"]%string in
  let ids0 := [[101; 1; 1097; 1098; 102; 0; 0; 0];
               [101; 1; 1097; 1098; 1099; 1100; 102; 0]]%Z in
  let mask0 := [[1; 1; 1; 1; 1; 0; 0; 0]; [1; 1; 1; 1; 1; 1; 1; 0]]%Z in
  TokContract (tok self) /\
  (0 < Config.cap_padding (config self))%Z /\
  marked self batch false = Ok (ids0, mask0) /\
  shape ids0 2 8 /\
  query_side self batch false = Ok (pad_policy self (ids0, mask0)).
Proof.
  intros self batch ids0 mask0.
  assert (Hc : TokContract (tok self)) by exact ToyFacts.contract.
  assert (Hk : (0 < Config.cap_padding (config self))%Z) by (vm_compute; reflexivity).
  assert (Hm : marked self batch false = Ok (ids0, mask0)) by (vm_compute; reflexivity).
  assert (S0 : shape ids0 2 8) by (apply shape_shapeb; reflexivity).
  split; [exact Hc |]. split; [exact Hk |]. split; [exact Hm |]. split; [exact S0 |].
  apply (@generous_cap_is_identity self batch false ids0 mask0 8 Hc Hk Hm S0).
  intros i Hi. pose proof (count_ne_le (pad_token_id self) (nth i ids0 [])) as H.
  change (Config.cap_padding (config self)) with 8%Z. lia.
Defined.

(** ** Shape and bits of whatever is returned *)

Lemma attend_shape (self : QueryTokenizer) (st st' : tensor2 * tensor2) (n L : nat) :
  shape (fst st) n L -> shape (snd st) n L -> bits (snd st) ->
  attend self st = Ok st' ->
  shape (fst st') n L /\ shape (snd st') n L /\ bits (snd st').
Proof.
  intros S S' B Ha. apply attend_inv in Ha. destruct Ha as (Hids & Hoff & Hon).
  rewrite Hids. split; [exact S |].
  destruct (Config.attend_to_mask_tokens (config self)).
  - destruct (Hon eq_refl) as [-> _].
    split; [now apply masked_set_shape | now apply masked_set_bits].
  - rewrite (Hoff eq_refl). auto.
Qed.

(** X10: whatever the cap, the context and the attention setting are, the
    [ids] and [mask] that [tensorize] returns have one shape, one row per
    query and at least one row, and the mask holds only zeros and ones. *)
Theorem returned_pair_is_well_formed (self : QueryTokenizer) (batch : pyseq)
  (context : option (list string)) (fls : bool) (ids mask : tensor2) :
  TokContract (tok self) ->
  tensorize self batch None context fls = Ok (Pair ids mask) ->
  exists L,
    length (items batch) <> 0 /\
    shape ids (length (items batch)) L /\ shape mask (length (items batch)) L /\
    bits mask.
Proof.
  intros Hc Ht. apply tensorize_inv in Ht.
  destruct Ht as ([ids1 mask1] & st2 & st3 & Hq & Hs & Ha & Hf).
  symmetry in Hf. apply finish_Pair in Hf. subst st3.
  destruct (@query_side_shape self batch fls ids1 mask1 Hc Hq) as (L & Hn & S & S' & B).
  destruct (@splice_shape self batch context (ids1, mask1) st2 L Hc S S' B Hs)
    as (L' & _ & S2 & S2' & B2).
  destruct (@attend_shape self st2 (ids, mask) _ L' S2 S2' B2 Ha) as (S3 & S3' & B3).
  exists L'. cbn [fst snd] in *. auto.
Qed.

Lemma returned_pair_is_well_formed_witness :
  let self := Toy.qt 8 "mask" 2 false in
  let batch := PyList ["ab"; "abcd"]%string in
  let context := Some ["xyz"; "x"]%string in
  TokContract (tok self) /\
  exists ids mask L,
    tensorize self batch None context false = Ok (Pair ids mask) /\
    shape ids 2 L /\ shape mask 2 L /\ bits mask.
Proof.
  intros self batch context.
  assert (Hc : TokContract (tok self)) by exact ToyFacts.contract.
  split; [exact Hc |].
  destruct (tensorize self batch None context false) as [[ids mask | bs] | e] eqn:Ht;
    [| vm_compute in Ht; discriminate | vm_compute in Ht; discriminate].
  destruct (@returned_pair_is_well_formed self batch context false ids mask Hc Ht)
    as (L & _ & S & S' & B).
  exists ids, mask, L. auto.
Defined.

(** ** Dense attention *)

Lemma all_ones_from_entries (t : tensor2) :
  (forall i j v, entry t i j = Some v -> v = 1%Z) -> Forall (Forall (eq 1%Z)) t.
Proof.
  intros He. apply Forall_forall. intros row Hrow.
  apply In_nth_error in Hrow. destruct Hrow as [i Hi].
  apply Forall_forall. intros v Hv. apply In_nth_error in Hv. destruct Hv as [j Hj].
  symmetry. apply (He i j). unfold entry. now rewrite Hi.
Qed.

(** X11: with the mask-token pad policy, no cap and no context,
    [attend_to_mask_tokens] never trips the dense-mask assert when the
    attention of the tokenizer is 0 only on pad ids: every pad becomes a mask
    token, every mask token is attended, and [tensorize] returns the
    pad-replaced ids with an all-ones mask. *)
Theorem dense_attention_succeeds (self : QueryTokenizer) (batch : pyseq) (fls : bool)
  (ids0 mask0 : tensor2) :
  TokContract (tok self) ->
  Config.query_pad_tok (config self) = "mask"%string ->
  (Config.cap_padding (config self) <= 0)%Z ->
  Config.attend_to_mask_tokens (config self) = true ->
  marked self batch fls = Ok (ids0, mask0) ->
  (forall i j, entry mask0 i j = Some 0%Z -> entry ids0 i j = Some (pad_token_id self)) ->
  exists mask,
    tensorize self batch None None fls =
      Ok (Pair (replace (pad_token_id self) (mask_token_id self) ids0) mask) /\
    Forall (Forall (eq 1%Z)) mask.
Proof.
  intros Hc Hp Hk Hatt Hm Hzero.
  destruct (@marked_shape self batch fls ids0 mask0 Hc Hm)
    as (W & target & Hn & _ & S0 & Sm0 & B0 & _).
  set (ids1 := replace (pad_token_id self) (mask_token_id self) ids0).
  assert (S1 : shape ids1 (length (items batch)) W) by now apply replace_shape.
  assert (Hq : query_side self batch fls = Ok (ids1, mask0)).
  { unfold query_side. rewrite Hm. cbn [bind]. rewrite cap_off by assumption.
    now rewrite pad_policy_mask_eq. }
  destruct (@attend_spec self ids1 mask0 _ W Hatt Hn S1 Sm0 B0)
    as (_ & _ & [(Ha & Hall & _) | (_ & Hnot)]).
  - exists (masked_set (mask_token_id self) 1%Z ids1 mask0). split; [| exact Hall].
    unfold tensorize. rewrite Hq. cbn [bind splice]. rewrite Ha. reflexivity.
  - exfalso. apply Hnot. apply all_ones_from_entries. intros i j v Hv.
    destruct (entry ids1 i j) as [x |] eqn:Hx.
    + destruct (@masked_set_entry (mask_token_id self) 1%Z ids1 mask0 _ W i j x S1 Sm0 Hx)
        as (m & Hm0 & He).
      rewrite He in Hv. injection Hv as <-.
      destruct (Z.eqb_spec x (mask_token_id self)) as [_ | Hxm]; [reflexivity |].
      assert (Hbit : m = 0%Z \/ m = 1%Z).
      { unfold entry in Hm0. destruct (nth_error mask0 i) as [rm |] eqn:Hrm; [| discriminate].
        unfold bits in B0. rewrite Forall_forall in B0.
        specialize (B0 _ (nth_error_In _ _ Hrm)). rewrite Forall_forall in B0.
        apply B0. eapply nth_error_In. exact Hm0. }
      destruct Hbit as [-> | ->]; [| reflexivity].
      exfalso. apply Hxm. specialize (Hzero i j Hm0).
      unfold ids1, replace in Hx. rewrite entry_map, Hzero in Hx. cbn [option_map] in Hx.
      rewrite Z.eqb_refl in Hx. congruence.
    + exfalso. unfold masked_set, entry in Hv, Hx.
      destruct (nth_error (map2 _ ids1 mask0) i) as [r |] eqn:Hr; [| discriminate].
      assert (Hi : i < length ids1).
      { assert (Hl : i < length (map2 (map2 (fun x m => if (x =? mask_token_id self)%Z
                                                          then 1%Z else m)) ids1 mask0)).
        { apply nth_error_Some. congruence. }
        rewrite map2_length in Hl; [exact Hl |]. destruct S1, Sm0. congruence. }
      destruct (nth_error ids1 i) as [ri |] eqn:Hri; [| apply nth_error_None in Hri; lia].
      assert (Hi' : i < length mask0) by (destruct S1, Sm0; lia).
      destruct (nth_error mask0 i) as [rm |] eqn:Hrm; [| apply nth_error_None in Hrm; lia].
      rewrite (nth_error_map2 _ _ _ _ Hri Hrm) in Hr. injection Hr as <-.
      assert (Hj : j < length ri).
      { assert (Hl : j < length (map2 (fun x m => if (x =? mask_token_id self)%Z
                                                   then 1%Z else m) ri rm)).
        { apply nth_error_Some. congruence. }
        rewrite map2_length in Hl; [exact Hl |].
        rewrite (shape_row i S1 Hri), (shape_row i Sm0 Hrm). reflexivity. }
      apply nth_error_None in Hx. lia.
Qed.

Lemma dense_attention_succeeds_witness :
  let self := Toy.qt 8 "mask" 0 true in
  let batch := PyList ["ab"; "abcd"]%string in
  let ids0 := [[101; 1; 1097; 1098; 102; 0; 0; 0];
               [101; 1; 1097; 1098; 1099; 1100; 102; 0]]%Z in
  let mask0 := [[1; 1; 1; 1; 1; 0; 0; 0]; [1; 1; 1; 1; 1; 1; 1; 0]]%Z in
  TokContract (tok self) /\
  Config.query_pad_tok (config self) = "mask"%string /\
  (Config.cap_padding (config self) <= 0)%Z /\
  Config.attend_to_mask_tokens (config self) = true /\
  marked self batch false = Ok (ids0, mask0) /\
  exists mask,
    tensorize self batch None None false =
      Ok (Pair (replace (pad_token_id self) (mask_token_id self) ids0) mask) /\
    Forall (Forall (eq 1%Z)) mask.
Proof.
  intros self batch ids0 mask0.
  assert (Hc : TokContract (tok self)) by exact ToyFacts.contract.
  assert (Hp : Config.query_pad_tok (config self) = "mask"%string) by reflexivity.
  assert (Hk : (Config.cap_padding (config self) <= 0)%Z) by (vm_compute; discriminate).
  assert (Hatt : Config.attend_to_mask_tokens (config self) = true) by reflexivity.
  assert (Hm : marked self batch false = Ok (ids0, mask0)) by (vm_compute; reflexivity).
  split; [exact Hc |]. split; [exact Hp |]. split; [exact Hk |]. split; [exact Hatt |].
  split; [exact Hm |].
  apply (@dense_attention_succeeds self batch false ids0 mask0 Hc Hp Hk Hatt Hm).
  intros i j H.
  destruct i as [| [| i]].
  - do 8 (destruct j as [| j]; [vm_compute in H |- *; first [discriminate H | reflexivity] |]).
    exfalso. cbn in H. destruct j; discriminate H.
  - do 8 (destruct j as [| j]; [vm_compute in H |- *; first [discriminate H | reflexivity] |]).
    exfalso. cbn in H. destruct j; discriminate H.
  - exfalso. cbn in H. destruct i; discriminate H.
Defined.

(** ** More on the context *)

Lemma map2_app_split (a b : tensor2) (n L : nat) :
  shape a n L -> length b = n ->
  map (firstn L) (map2 (@app Z) a b) = a /\ map (skipn L) (map2 (@app Z) a b) = b.
Proof.
  revert b n. induction a as [| ra a IH]; intros b n [Hn Hrows] Hb.
  - simpl in Hn. subst n. apply length_zero_iff_nil in Hb. subst b. split; reflexivity.
  - destruct b as [| rb b]; [simpl in *; congruence |].
    inversion Hrows as [| ? ? Hra Hrows']; subst.
    destruct (IH b (length a)) as [H1 H2]; [now split | simpl in Hb; congruence |].
    cbn [map2 map]. rewrite H1, H2. split; f_equal.
    + rewrite firstn_app, Nat.sub_diag, firstn_all. cbn [firstn]. apply app_nil_r.
    + rewrite skipn_app, Nat.sub_diag, skipn_all. reflexivity.
Qed.

(** X12: a context only appends: when [tensorize] returns [(qids, qmask)] of
    width [L] without context (no forced attention), then with a context of
    the length of the batch it returns tensors whose first [L] columns are
    [qids] and [qmask] and whose remaining columns are the tokenized context
    ids and mask without their column 0. *)
Theorem context_keeps_query_side (self : QueryTokenizer) (batch : pyseq)
  (context : list string) (fls : bool) (qids qmask : tensor2) :
  let n := length (items batch) in
  let ids_c := fst (Tok.call_longest (tok self) context (background_maxlen self)) in
  let mask_c := snd (Tok.call_longest (tok self) context (background_maxlen self)) in
  TokContract (tok self) ->
  Config.attend_to_mask_tokens (config self) = false ->
  length context = n ->
  tensorize self batch None None fls = Ok (Pair qids qmask) ->
  exists ids mask L,
    tensorize self batch None (Some context) fls = Ok (Pair ids mask) /\
    shape qids n L /\
    map (firstn L) ids = qids /\ map (firstn L) mask = qmask /\
    map (skipn L) ids = map (skipn 1) ids_c /\
    map (skipn L) mask = map (skipn 1) mask_c.
Proof.
  intros n ids_c mask_c Hc Hatt Hlen Ht. apply tensorize_inv in Ht.
  destruct Ht as (st1 & st2 & st3 & Hq & Hs & Ha & Hf).
  symmetry in Hf. apply finish_Pair in Hf. subst st3.
  rewrite attend_off in Ha by assumption.
  assert (E2 : st2 = (qids, qmask)) by congruence. subst st2.
  cbn [splice] in Hs. assert (E1 : st1 = (qids, qmask)) by congruence. subst st1.
  destruct (@query_side_shape self batch fls qids qmask Hc Hq) as (L & Hn & S & S' & _).
  destruct (@splice_spec self batch context qids qmask L Hc S S') as [_ Hgood].
  destruct (Hgood Hlen) as (cw & _ & So & So' & Heq & _).
  fold n in S, S', So, So'. fold ids_c in So, Heq. fold mask_c in So', Heq.
  exists (map2 (@app Z) qids (map (skipn 1) ids_c)),
    (map2 (@app Z) qmask (map (skipn 1) mask_c)), L.
  split.
  { unfold tensorize. rewrite Hq. cbn [bind]. rewrite Heq. cbn [bind].
    rewrite attend_off by assumption. reflexivity. }
  split; [exact S |].
  assert (Lc : length (map (skipn 1) ids_c) = n) by (rewrite length_map; now destruct So).
  assert (Lc' : length (map (skipn 1) mask_c) = n) by (rewrite length_map; now destruct So').
  destruct (@map2_app_split qids (map (skipn 1) ids_c) n L S Lc) as [H1 H2].
  destruct (@map2_app_split qmask (map (skipn 1) mask_c) n L S' Lc') as [H3 H4].
  auto.
Qed.

Lemma context_keeps_query_side_witness :
  let self := Toy.qt 8 "mask" 2 false in
  let batch := PyList ["ab"; "abcd"]%string in
  let context := ["xyz"; "x"]%string in
  let qids := [[101; 1; 1097; 1098; 102; 103; 103; 0];
               [101; 1; 1097; 1098; 1099; 1100; 102; 103]]%Z in
  let qmask := [[1; 1; 1; 1; 1; 0; 0; 0]; [1; 1; 1; 1; 1; 1; 1; 0]]%Z in
  TokContract (tok self) /\
  Config.attend_to_mask_tokens (config self) = false /\
  length context = length (items batch) /\
  tensorize self batch None None false = Ok (Pair qids qmask) /\
  exists ids mask L,
    tensorize self batch None (Some context) false = Ok (Pair ids mask) /\
    map (firstn L) ids = qids /\ map (firstn L) mask = qmask.
Proof.
  intros self batch context qids qmask.
  assert (Hc : TokContract (tok self)) by exact ToyFacts.contract.
  assert (Hatt : Config.attend_to_mask_tokens (config self) = false) by reflexivity.
  assert (Hlen : length context = length (items batch)) by reflexivity.
  assert (Ht : tensorize self batch None None false = Ok (Pair qids qmask))
    by (vm_compute; reflexivity).
  split; [exact Hc |]. split; [exact Hatt |]. split; [exact Hlen |]. split; [exact Ht |].
  destruct (@context_keeps_query_side self batch context false qids qmask Hc Hatt Hlen Ht)
    as (ids & mask & L & H1 & _ & H2 & H3 & _).
  exists ids, mask, L. auto.
Defined.

Lemma query_side_width_le (self : QueryTokenizer) (batch : pyseq) (fls : bool)
  (ids0 mask0 ids mask : tensor2) (W L : nat) :
  TokContract (tok self) ->
  marked self batch fls = Ok (ids0, mask0) ->
  query_side self batch fls = Ok (ids, mask) ->
  shape ids0 (length (items batch)) W -> shape ids (length (items batch)) L ->
  L <= W.
Proof.
  intros Hc Hm Hq S0 S.
  destruct (@marked_shape self batch fls ids0 mask0 Hc Hm) as (W0 & target & Hn & _).
  destruct (Z.lt_ge_cases 0 (Config.cap_padding (config self))) as [Hk | Hk].
  - destruct (@query_side_capped self batch fls ids0 mask0 Hc Hk Hm)
      as (W' & M & ids' & mask' & S0' & _ & _ & _ & Hq2 & Hs & _).
    rewrite Hq in Hq2. injection Hq2 as <- <-.
    assert (HW : W' = W) by exact (shape_unique S0' S0 Hn). subst W'.
    assert (HL : L = Z.to_nat (Z.min (Z.of_nat W) M)) by exact (shape_unique S Hs Hn).
    lia.
  - apply query_side_inv in Hq. destruct Hq as (ids0' & mask0' & Hm' & Hcap).
    rewrite Hm in Hm'. injection Hm' as <- <-.
    rewrite cap_off in Hcap by assumption.
    assert (Hpp : pad_policy self (ids0, mask0) = (ids, mask)) by congruence.
    pose proof (@pad_policy_shape self (ids0, mask0) _ _ S0) as S1.
    rewrite Hpp in S1. cbn [fst] in S1.
    assert (HL : L = W) by exact (shape_unique S S1 Hn). lia.
Qed.

(** X13: [__init__] sets [background_maxlen = 512 - query_maxlen + 1] so that
    a query with its context fits 512 positions: without full-length search,
    when the tokenizer truncates the context to [background_maxlen] columns,
    the tensors that [tensorize] returns with a context have at most 512
    columns. *)
Theorem spliced_width_within_512 (cfg : Config.t) (tk : Tok.t) (batch : pyseq)
  (context : list string) (ids mask : tensor2) :
  let self := init cfg tk in
  let ids_c := fst (Tok.call_longest tk context (background_maxlen self)) in
  TokContract tk ->
  (2 <= Config.query_maxlen cfg)%Z ->
  (Z.of_nat (size1 ids_c) <= background_maxlen self)%Z ->
  tensorize self batch None (Some context) false = Ok (Pair ids mask) ->
  exists L, shape ids (length (items batch)) L /\ shape mask (length (items batch)) L /\
            L <= 512.
Proof.
  intros self ids_c Hc Hq Htrunc Ht. apply tensorize_inv in Ht.
  destruct Ht as ([ids1 mask1] & st2 & st3 & Hqs & Hs & Ha & Hf).
  symmetry in Hf. apply finish_Pair in Hf. subst st3.
  destruct (@query_side_shape self batch false ids1 mask1 Hc Hqs) as (L & Hn & S & S' & B).
  pose proof Hqs as Hqs'. apply query_side_inv in Hqs'.
  destruct Hqs' as (ids0 & mask0 & Hm & _).
  destruct (@marked_shape self batch false ids0 mask0 Hc Hm)
    as (W & target & _ & _ & S0 & _ & _ & _ & Htl & HWt).
  cbn [target_length] in Htl. injection Htl as <-.
  change (query_maxlen self) with (Config.query_maxlen cfg) in HWt.
  specialize (HWt Hq).
  pose proof (@query_side_width_le self batch false ids0 mask0 ids1 mask1 W L Hc Hm Hqs S0 S)
    as HLW.
  destruct (@splice_spec self batch context ids1 mask1 L Hc S S') as [Hbad Hgood].
  destruct (Nat.eq_dec (length context) (length (items batch))) as [E | E];
    [| rewrite (Hbad E) in Hs; discriminate].
  destruct (Hgood E) as (cw & Hcw & So & _ & Heq & Sc & Sc' & Bc).
  rewrite Heq in Hs. injection Hs as <-.
  destruct (@attend_shape self
              (map2 (@app Z) ids1
                 (map (skipn 1)
                    (fst (Tok.call_longest (tok self) context (background_maxlen self)))),
               map2 (@app Z) mask1
                 (map (skipn 1)
                    (snd (Tok.call_longest (tok self) context (background_maxlen self)))))
              (ids, mask) (length (items batch)) (L + cw - 1) Sc Sc' (Bc B) Ha)
    as (S3 & S3' & _).
  cbn [fst snd] in S3, S3'.
  exists (L + cw - 1). split; [exact S3 |]. split; [exact S3' |].
  change (fst (Tok.call_longest (tok self) context (background_maxlen self))) with ids_c in So.
  rewrite (shape_size1 So Hn) in Htrunc.
  change (background_maxlen self) with (512 - Config.query_maxlen cfg + 1)%Z in Htrunc.
  lia.
Qed.

Lemma spliced_width_within_512_witness :
  let cfg := Toy.cfg 8 "mask" 0 false in
  let self := init cfg Toy.tokenizer in
  let batch := PyList ["ab"; "abcd"]%string in
  let context := ["xyz"; "x"]%string in
  TokContract Toy.tokenizer /\
  (2 <= Config.query_maxlen cfg)%Z /\
  (Z.of_nat (size1 (fst (Tok.call_longest Toy.tokenizer context (background_maxlen self))))
   <= background_maxlen self)%Z /\
  exists ids mask L,
    tensorize self batch None (Some context) false = Ok (Pair ids mask) /\
    shape ids 2 L /\ L <= 512.
Proof.
  intros cfg self batch context.
  assert (Hc : TokContract Toy.tokenizer) by exact ToyFacts.contract.
  assert (Hq : (2 <= Config.query_maxlen cfg)%Z) by (vm_compute; discriminate).
  assert (Htr : (Z.of_nat (size1 (fst (Tok.call_longest Toy.tokenizer context
                                         (background_maxlen self))))
                 <= background_maxlen self)%Z) by (vm_compute; discriminate).
  split; [exact Hc |]. split; [exact Hq |]. split; [exact Htr |].
  destruct (tensorize self batch None (Some context) false) as [[ids mask | bs] | e] eqn:Ht;
    [| vm_compute in Ht; discriminate | vm_compute in Ht; discriminate].
  destruct (@spliced_width_within_512 cfg Toy.tokenizer batch context ids mask Hc Hq Htr Ht)
    as (L & S & _ & HL).
  exists ids, mask, L. auto.
Defined.

(** * Properties of the mixed-precision manager *)

Module AmpFacts.

Import Amp.

(** X14: a manager keeps [self.scaler] whenever it is activated, so
    [backward] and [step] of a manager as [__init__] built it never fail on
    the missing attribute and never touch a scaler when mixed precision is
    off; an object whose flag is set while no scaler was created fails in both
    with [AttributeError], before any call is made. *)
Theorem scaler_is_there_when_needed (a scheduler : bool) (broken : Amp.t) :
  let self := fst (Amp.init a) in
  (activated self = true -> scaler self <> None) /\
  (exists calls, backward self = Done calls /\ existsb uses_scaler calls = a) /\
  (exists calls, step self scheduler = Done calls /\ existsb uses_scaler calls = a) /\
  (existsb uses_scaler (snd (Amp.init a)) = a) /\
  (activated broken = true -> scaler broken = None ->
   backward broken = AttributeError /\ step broken scheduler = AttributeError).
Proof.
  cbv zeta. split; [| split; [| split; [| split]]].
  - destruct a; simpl; [discriminate | discriminate].
  - destruct a; simpl; eexists; split; reflexivity.
  - destruct a, scheduler; simpl; eexists; split; reflexivity.
  - destruct a; reflexivity.
  - intros Ha Hs. unfold backward, step, with_scaler. rewrite Ha, Hs. split; reflexivity.
Qed.

Lemma scaler_is_there_when_needed_witness :
  let broken := {| activated := true; scaler := None |} in
  activated broken = true /\ scaler broken = None /\
  backward broken = AttributeError /\ step broken true = AttributeError /\
  step (fst (Amp.init true)) true =
    Done [unscale_; clip_grad_norm_ 2 (Some false); scaler_step; scaler_update;
          scheduler_step].
Proof.
  intros broken.
  destruct (scaler_is_there_when_needed true true broken) as (_ & _ & _ & _ & H).
  split; [reflexivity |]. split; [reflexivity |].
  destruct (H eq_refl eq_refl) as [H1 H2].
  split; [exact H1 |]. split; [exact H2 | reflexivity].
Defined.

(** X15: the calls of [step], in order: it calls exactly one of
    [self.scaler.step(optimizer)] and [optimizer.step()], once, the scaler's
    exactly when the manager is activated; it calls [clip_grad_norm_] (max
    norm 2.0) exactly when a scheduler is passed, before that step call and,
    when activated, after [unscale_]; [self.scaler.update()] comes after
    [self.scaler.step]; and [scheduler.step()], when a scheduler is passed,
    is the last call, and is not called otherwise. *)
Theorem step_calls (a scheduler : bool) (calls : list event) :
  step (fst (Amp.init a)) scheduler = Done calls ->
  length (filter is_step_call calls) = 1 /\
  In (step_call_of a) calls /\
  existsb is_clip calls = scheduler /\
  (scheduler = true -> before (clip_of a) (step_call_of a) calls) /\
  (scheduler = true -> a = true -> before unscale_ (clip_of a) calls) /\
  (a = true -> before unscale_ scaler_step calls /\ before scaler_step scaler_update calls) /\
  (scheduler = true -> exists l, calls = l ++ [scheduler_step]) /\
  (scheduler = false -> ~ In scheduler_step calls).
Proof.
  intros H.
  destruct a, scheduler; simpl in H; injection H as <-;
    (split; [reflexivity |]); (split; [simpl; tauto |]); (split; [reflexivity |]).
  - split; [intros _; exists [unscale_], [], [scaler_update; scheduler_step]; reflexivity |].
    split; [intros _ _; exists [], [], [scaler_step; scaler_update; scheduler_step];
            reflexivity |].
    split.
    { intros _. split.
      - exists [], [clip_of true], [scaler_update; scheduler_step]. reflexivity.
      - exists [unscale_; clip_of true], [], [scheduler_step]. reflexivity. }
    split; [intros _; eexists [_; _; _; _]; reflexivity | discriminate].
  - split; [discriminate |]. split; [discriminate |].
    split.
    { intros _. split.
      - exists [], [], [scaler_update]. reflexivity.
      - exists [unscale_], [], []. reflexivity. }
    split; [discriminate |].
    intros _ Hin. simpl in Hin. intuition discriminate.
  - split; [intros _; exists [], [], [scheduler_step]; reflexivity |].
    split; [discriminate |]. split; [discriminate |].
    split; [intros _; eexists [_; _]; reflexivity | discriminate].
  - split; [discriminate |]. split; [discriminate |]. split; [discriminate |].
    split; [discriminate |].
    intros _ Hin. simpl in Hin. intuition discriminate.
Qed.

Lemma step_calls_witness :
  let calls := [clip_grad_norm_ 2 None; optimizer_step; scheduler_step] in
  step (fst (Amp.init false)) true = Done calls /\
  length (filter is_step_call calls) = 1 /\
  before (clip_of false) (step_call_of false) calls.
Proof.
  intros calls.
  assert (H : step (fst (Amp.init false)) true = Done calls) by reflexivity.
  destruct (@step_calls false true calls H) as (H1 & _ & _ & H2 & _).
  split; [exact H |]. split; [exact H1 | exact (H2 eq_refl)].
Defined.

End AmpFacts.
